(** * Study Buddy: the chat proxy handler and the chat session loop

    A shallow embedding of the two pieces of the repository that carry
    logic:

    - [src/backend/server.js], the Express handler of [POST /api/chat];
    - the [ChatInterface] component, its [handleSend] in particular.

    JavaScript values are an inductive type, strings are sequences of
    UTF-16 code units, and effectful code is written in a small state and
    exception monad, so that [try]/[catch]/[finally] keep their meaning. *)

From Stdlib Require Import List NArith ZArith Bool Ascii String Lia DecimalN.
Import ListNotations.

Set Warnings "-register-all".

(** ** Strings *)

Module JsString.

(** A JavaScript string is a sequence of UTF-16 code units. *)
Definition jsstring := list N.

(** The code units of an ASCII literal of the source. *)
Definition lit (s : string) : jsstring :=
  List.map N_of_ascii (list_ascii_of_string s).

Fixpoint eqb (s t : jsstring) : bool :=
  match s, t with
  | [], [] => true
  | a :: s', b :: t' => N.eqb a b && eqb s' t'
  | _, _ => false
  end.

(** WhiteSpace and LineTerminator of ECMAScript: what [trim] strips.
    All of them are single code units. *)
Definition is_ws (c : N) : bool :=
  match c with
  | 9 | 10 | 11 | 12 | 13 | 32 | 160 | 5760
  | 8232 | 8233 | 8239 | 8287 | 12288 | 65279 => true
  | _ => (8192 <=? c) && (c <=? 8202)
  end%N.

Fixpoint trimStart (s : jsstring) : jsstring :=
  match s with
  | [] => []
  | c :: s' => if is_ws c then trimStart s' else s
  end.

Definition trimEnd (s : jsstring) : jsstring :=
  rev (trimStart (rev s)).

(** [String.prototype.trim] *)
Definition trim (s : jsstring) : jsstring := trimEnd (trimStart s).

(** Empty or made of white space only. *)
Definition blank (s : jsstring) : bool := forallb is_ws s.

(** Decimal digits of [Number.prototype.toString] on a non-negative
    integer below 2^53 (every reading of a millisecond clock is). *)
Fixpoint digits (d : Decimal.uint) : jsstring :=
  match d with
  | Decimal.Nil => []
  | Decimal.D0 d' => 48%N :: digits d'
  | Decimal.D1 d' => 49%N :: digits d'
  | Decimal.D2 d' => 50%N :: digits d'
  | Decimal.D3 d' => 51%N :: digits d'
  | Decimal.D4 d' => 52%N :: digits d'
  | Decimal.D5 d' => 53%N :: digits d'
  | Decimal.D6 d' => 54%N :: digits d'
  | Decimal.D7 d' => 55%N :: digits d'
  | Decimal.D8 d' => 56%N :: digits d'
  | Decimal.D9 d' => 57%N :: digits d'
  end.

Definition toString (n : N) : jsstring := digits (N.to_uint n).

End JsString.
Import JsString.

(** ** Values *)

Module JsValue.

(** A number: not-a-number, an infinity, or [(-1)^neg * mant * 2^exp]. *)
Inductive jsnumber :=
| NaN
| Infinity (neg : bool)
| Finite (neg : bool) (mant : N) (exp : Z).

Definition int (n : N) : jsnumber := Finite false n 0.

(** The values that JSON data, and a missing property, can take. *)
Inductive jsvalue :=
| JUndefined
| JNull
| JBool (b : bool)
| JNumber (x : jsnumber)
| JString (s : jsstring)
| JArray (items : list jsvalue)
| JObject (props : list (jsstring * jsvalue)).

(** [typeof v === 'string'] *)
Definition is_string (v : jsvalue) : bool :=
  match v with JString _ => true | _ => false end.

(** ToBoolean: what [!v] and [v || w] test. *)
Definition truthy (v : jsvalue) : bool :=
  match v with
  | JUndefined | JNull => false
  | JBool b => b
  | JNumber NaN => false
  | JNumber (Infinity _) => true
  | JNumber (Finite _ mant _) => negb (N.eqb mant 0)
  | JString s => match s with [] => false | _ => true end
  | JArray _ | JObject _ => true
  end.

(** [v || w] *)
Definition or_else (v w : jsvalue) : jsvalue :=
  if truthy v then v else w.

Definition nullish (v : jsvalue) : bool :=
  match v with JUndefined | JNull => true | _ => false end.

Fixpoint lookup (k : jsstring) (props : list (jsstring * jsvalue))
  : option jsvalue :=
  match props with
  | [] => None
  | (k', v) :: rest => if JsString.eqb k k' then Some v else lookup k rest
  end.

(** Reading a property that no built-in prototype defines ([message],
    [reply], [response]) from a value that is neither [null] nor
    [undefined]: the own property of an object, [undefined] otherwise.
    Arrays and primitives have no such own property. *)
Definition get_own (v : jsvalue) (k : jsstring) : jsvalue :=
  match v with
  | JObject props =>
      match lookup k props with Some x => x | None => JUndefined end
  | _ => JUndefined
  end.

(** The property is there at all ([k in v], for an object). *)
Definition has_own (v : jsvalue) (k : jsstring) : bool :=
  match v with
  | JObject props =>
      match lookup k props with Some _ => true | None => false end
  | _ => false
  end.

End JsValue.
Import JsValue.

(** ** Effects *)

Module Eff.

(** What a [throw] carries. *)
Inductive exn :=
| TypeError (what : jsstring)
| Raised (detail : jsvalue).

Inductive completion (A : Type) :=
| Normal (a : A)
| Throw (e : exn).
Arguments Normal {A} a.
Arguments Throw {A} e.

(** A computation over a world [W]: the world survives a [throw]. *)
Definition eff (W A : Type) := W -> completion A * W.

Definition ret {W A} (a : A) : eff W A := fun w => (Normal a, w).

Definition bind {W A B} (c : eff W A) (k : A -> eff W B) : eff W B :=
  fun w =>
    match c w with
    | (Normal a, w') => k a w'
    | (Throw e, w') => (Throw e, w')
    end.

Definition throw {W A} (e : exn) : eff W A := fun w => (Throw e, w).

Definition modify {W} (f : W -> W) : eff W unit :=
  fun w => (Normal tt, f w).

Definition gets {W A} (f : W -> A) : eff W A :=
  fun w => (Normal (f w), w).

(** [try { c } catch (e) { h e }] *)
Definition try_catch {W A} (c : eff W A) (h : exn -> eff W A) : eff W A :=
  fun w =>
    match c w with
    | (Normal a, w') => (Normal a, w')
    | (Throw e, w') => h e w'
    end.

(** [try { c } finally { f }], for an [f] that completes normally
    or throws. *)
Definition try_finally {W A} (c : eff W A) (f : eff W unit) : eff W A :=
  fun w =>
    match c w with
    | (r, w') =>
        match f w' with
        | (Normal _, w'') => (r, w'')
        | (Throw e, w'') => (Throw e, w'')
        end
    end.

(** Destructuring or reading a property of [v]: a TypeError on [null]
    and [undefined]. *)
Definition get_prop {W} (v : jsvalue) (k : jsstring) : eff W jsvalue :=
  if nullish v
  then throw (TypeError (lit "Cannot read properties of null or undefined"))
  else ret (get_own v k).

End Eff.
Import Eff.

Declare Scope eff_scope.
Delimit Scope eff_scope with eff.
Notation "x <- c ;; k" := (bind c (fun x => k))
  (at level 61, c at next level, right associativity) : eff_scope.
Notation "c ;; k" := (bind c (fun _ => k))
  (at level 61, right associativity) : eff_scope.
Open Scope eff_scope.

(** ** The chat proxy service: [src/backend/server.js] *)

Module Server.

Record HttpResponse := { status : N; body : jsvalue }.

(** One use of the provider's client library: the key handed to
    [new GoogleGenerativeAI], the argument of [getGenerativeModel] and
    the argument of [generateContent]. *)
Record GenerateCall := {
  api_key : jsvalue;
  model_params : jsvalue;
  request : jsvalue
}.

(** How [await model.generateContent(..)] followed by
    [result.response.text()] can end. *)
Inductive GenerateOutcome :=
| GenerateRejected (e : exn)
| TextThrew (e : exn)
| GeneratedText (t : jsstring).

(** The external provider. *)
Definition Provider := GenerateCall -> GenerateOutcome.

(** What one run of the handler leaves behind: the responses written to
    [res], the lines of [console.error], the calls made to the
    provider. *)
Record Process := {
  sent : list HttpResponse;
  console : list (jsstring * exn);
  generate_calls : list GenerateCall
}.

Definition boot : Process :=
  {| sent := []; console := []; generate_calls := [] |}.

(** [res.status(code).json(payload)] *)
Definition res_status_json (code : N) (payload : jsvalue)
  : eff Process unit :=
  modify (fun w =>
    {| sent := sent w ++ [{| status := code; body := payload |}];
       console := console w;
       generate_calls := generate_calls w |}).

(** [res.json(payload)]: the status stays 200. *)
Definition res_json (payload : jsvalue) : eff Process unit :=
  res_status_json 200 payload.

(** [console.error(label, error)] *)
Definition console_error (label : jsstring) (error : exn)
  : eff Process unit :=
  modify (fun w =>
    {| sent := sent w;
       console := console w ++ [(label, error)];
       generate_calls := generate_calls w |}).

(** Lines 39 to 46: build the client and the model, generate, take the
    text. The call is recorded, then the provider decides. *)
Definition generateContent (gemini : Provider) (call : GenerateCall)
  : eff Process jsstring :=
  fun w =>
    let w' := {| sent := sent w;
                 console := console w;
                 generate_calls := generate_calls w ++ [call] |} in
    match gemini call with
    | GenerateRejected e => (Throw e, w')
    | TextThrew e => (Throw e, w')
    | GeneratedText t => (Normal t, w')
    end.

(** [process.env.X]: a string, or [undefined] when unset. *)
Definition env_value (x : option jsstring) : jsvalue :=
  match x with Some s => JString s | None => JUndefined end.

Definition error_body (text : string) : jsvalue :=
  JObject [(lit "error", JString (lit text))].

(** The handler of [app.post('/api/chat', ..)], [req.body] and
    [process.env.GEMINI_API_KEY] being its inputs. *)
Definition handleChat (gemini : Provider) (GEMINI_API_KEY : option jsstring)
    (req_body : jsvalue) : eff Process unit :=
  try_catch
    (message <- get_prop req_body (lit "message") ;;
     if negb (truthy message) || negb (is_string message) then
       res_status_json 400
         (error_body "Message is required and must be a string")
     else
       let apiKey := env_value GEMINI_API_KEY in
       if negb (truthy apiKey) then
         res_status_json 500 (error_body "Gemini API key not configured")
       else
         responseText <-
           generateContent gemini
             {| api_key := apiKey;
                model_params :=
                  JObject [(lit "model", JString (lit "gemini-2.0-flash"))];
                request := message |} ;;
         res_json (JObject [(lit "response", JString responseText)]))
    (fun error =>
       console_error (lit "Error in chat endpoint:") error ;;
       res_status_json 500 (error_body "Internal server error")).

(** Two providers to run the handler with: one that answers [t] to
    every call, one that rejects every call with [e]. *)
Definition answers (t : jsstring) : Provider := fun _ => GeneratedText t.
Definition rejects (e : exn) : Provider := fun _ => GenerateRejected e.

(** The world after the handler ran. *)
Definition after (gemini : Provider) (key : option jsstring)
    (req_body : jsvalue) (w : Process) : Process :=
  snd (handleChat gemini key req_body w).

(** The handler wrote exactly the response [r]. *)
Definition replied (w w' : Process) (r : HttpResponse) : Prop :=
  sent w' = sent w ++ [r].

(** [message] passes the validation of line 28. *)
Definition valid_message (message : jsvalue) : bool :=
  truthy message && is_string message.

Definition message_of (req_body : jsvalue) : jsvalue :=
  get_own req_body (lit "message").

Definition bad_request : HttpResponse :=
  {| status := 400;
     body := error_body "Message is required and must be a string" |}.

Definition not_configured : HttpResponse :=
  {| status := 500; body := error_body "Gemini API key not configured" |}.

Definition internal_error : HttpResponse :=
  {| status := 500; body := error_body "Internal server error" |}.

(** The one call that the handler makes for a message and a key. *)
Definition call_for (key : jsstring) (message : jsvalue) : GenerateCall :=
  {| api_key := JString key;
     model_params :=
       JObject [(lit "model", JString (lit "gemini-2.0-flash"))];
     request := message |}.

End Server.

(** ** The session state manager: [ChatInterface] *)

Module Client.

Inductive Sender := user | bot.

(** [Message] of [../types]. The annotation says [text: string]; the
    payload it may be filled from is untyped at run time, so the model
    keeps a value there. A [Date] is its millisecond reading. *)
Record Message := {
  id : jsstring;
  text : jsvalue;
  sender : Sender;
  timestamp : N
}.

(** The three [useState] cells of the component, the clock of the page
    (its successive readings, and how many were taken) and the lines of
    [console.error]. *)
Record Browser := {
  messages : list Message;
  input : jsstring;
  loading : bool;
  clock : nat -> N;
  reads : nat;
  console : list (jsstring * exn)
}.

(** The argument of [axios.post]. *)
Record PostRequest := { url : jsstring; data : jsvalue }.

(** How the promise of [axios.post] settles: fulfilled with [res], of
    which the handler reads [res.data] only, or rejected (no response at
    all, or a status that axios refuses). *)
Inductive AxiosOutcome :=
| Fulfilled (res_data : jsvalue)
| Rejected (error : exn).

(** [setMessages(f)], with an updater function *)
Definition setMessages (f : list Message -> list Message)
  : eff Browser unit :=
  modify (fun w =>
    {| messages := f (messages w); input := input w; loading := loading w;
       clock := clock w; reads := reads w; console := console w |}).

Definition setInput (s : jsstring) : eff Browser unit :=
  modify (fun w =>
    {| messages := messages w; input := s; loading := loading w;
       clock := clock w; reads := reads w; console := console w |}).

Definition setLoading (b : bool) : eff Browser unit :=
  modify (fun w =>
    {| messages := messages w; input := input w; loading := b;
       clock := clock w; reads := reads w; console := console w |}).

(** [Date.now()], and [new Date()] alike: the next reading. *)
Definition Date_now : eff Browser N :=
  fun w =>
    (Normal (clock w (reads w)),
     {| messages := messages w; input := input w; loading := loading w;
        clock := clock w; reads := S (reads w); console := console w |}).

Definition console_error (label : jsstring) (error : exn)
  : eff Browser unit :=
  modify (fun w =>
    {| messages := messages w; input := input w; loading := loading w;
       clock := clock w; reads := reads w;
       console := console w ++ [(label, error)] |}).

(** [await p] *)
Definition await (o : AxiosOutcome) : eff Browser jsvalue :=
  match o with
  | Fulfilled res_data => ret res_data
  | Rejected error => throw error
  end.

Definition no_response : jsstring := lit "No response received.".

Definition could_not_get_response : jsstring :=
  lit "Error: Could not get response from server. Check your backend connection.".

(** [handleSend], from its first line to the [await]: the guard, the
    user's message, and the request handed to [axios.post] ([None] when
    the guard returns). [input] and [loading] are those of the render
    the handler belongs to, taken to be the current one. *)
Definition handleSend : eff Browser (option PostRequest) :=
  input_ <- gets input ;;
  loading_ <- gets loading ;;
  if negb (truthy (JString (trim input_))) || loading_ then ret None
  else
    now <- Date_now ;;
    date <- Date_now ;;
    let userMessage :=
      {| id := toString now; text := JString input_;
         sender := user; timestamp := date |} in
    setMessages (fun prev => prev ++ [userMessage]) ;;
    setInput [] ;;
    setLoading true ;;
    ret (Some {| url := lit "http://localhost:3001/api/chat";
                 data := JObject [(lit "message", JString input_)] |}).

(** [handleSend], from the [await] on: the rest of the [try], the
    [catch] and the [finally]. *)
Definition handleSend_resume (settled : AxiosOutcome) : eff Browser unit :=
  try_finally
    (try_catch
       (res_data <- await settled ;;
        now <- Date_now ;;
        reply <- get_prop res_data (lit "reply") ;;
        date <- Date_now ;;
        let botMessage :=
          {| id := toString (now + 1);
             text := or_else reply (JString no_response);
             sender := bot; timestamp := date |} in
        setMessages (fun prev => prev ++ [botMessage]))
       (fun error =>
          console_error (lit "Error sending message:") error ;;
          now <- Date_now ;;
          date <- Date_now ;;
          let errorMessage :=
            {| id := toString (now + 1);
               text := JString could_not_get_response;
               sender := bot; timestamp := date |} in
          setMessages (fun prev => prev ++ [errorMessage])))
    (setLoading false).

(** *** The session as a transition system *)

(** What can happen to a session: the user edits the input field, the
    user presses Send (or Enter), a request in flight settles. *)
Inductive Action :=
| Types (s : jsstring)
| Sends
| Settles (o : AxiosOutcome).

Record Session := { ui : Browser; in_flight : list PostRequest }.

(** One action, on a component that has re-rendered since the action
    before: the handler sees the state as it stands. *)
Definition step (s : Session) (a : Action) : Session :=
  match a with
  | Types t => {| ui := snd (setInput t (ui s)); in_flight := in_flight s |}
  | Sends =>
      match handleSend (ui s) with
      | (Normal (Some request), w) =>
          {| ui := w; in_flight := in_flight s ++ [request] |}
      | (_, w) => {| ui := w; in_flight := in_flight s |}
      end
  | Settles o =>
      match in_flight s with
      | [] => s
      | _ :: rest =>
          {| ui := snd (handleSend_resume o (ui s)); in_flight := rest |}
      end
  end.

Definition run (acts : list Action) (s : Session) : Session :=
  fold_left step acts s.

(** A freshly mounted component. *)
Definition mount (page_clock : nat -> N) : Session :=
  {| ui := {| messages := []; input := []; loading := false;
              clock := page_clock; reads := 0; console := [] |};
     in_flight := [] |}.

Definition reachable (s : Session) : Prop :=
  exists page_clock acts, s = run acts (mount page_clock).

(** *** Turns taken one after the other *)

(** A turn: what the user typed, and how the request settled. *)
Definition Turn := (jsstring * AxiosOutcome)%type.

Definition play (t : Turn) : list Action :=
  [Types (fst t); Sends; Settles (snd t)].

(** The text that the continuation displays for a settled request. *)
Definition displayed (o : AxiosOutcome) : jsvalue :=
  match o with
  | Rejected _ => JString could_not_get_response
  | Fulfilled res_data =>
      if nullish res_data then JString could_not_get_response
      else or_else (get_own res_data (lit "reply")) (JString no_response)
  end.

(** The two entries a turn leaves in the log, as sender and text. *)
Definition exchange (t : Turn) : list (Sender * jsvalue) :=
  [(user, JString (fst t)); (bot, displayed (snd t))].

Definition accepted (t : Turn) : bool := negb (blank (fst t)).

Definition view (m : Message) : Sender * jsvalue := (sender m, text m).

Definition other (x : Sender) : Sender :=
  match x with user => bot | bot => user end.

Definition same (x y : Sender) : bool :=
  match x, y with user, user | bot, bot => true | _, _ => false end.

(** Reading a list of senders that must take turns, [next] being due
    first: who is due after the last one, if they did take turns. *)
Fixpoint due (next : Sender) (l : list Sender) : option Sender :=
  match l with
  | [] => Some next
  | x :: l' => if same x next then due (other next) l' else None
  end.

(** The senders of a log made of user-then-bot pairs, followed by one
    more user message exactly when [open] is set. *)
Definition alternates (open : bool) (l : list Sender) : Prop :=
  due user l = Some (if open then bot else user).

(** The log is made of user-then-bot pairs; a request is in flight
    exactly while the session is loading, and then the log ends with
    the user's message that the request carries. *)
Definition settled_or_waiting (s : Session) : Prop :=
  alternates (loading (ui s)) (map sender (messages (ui s))) /\
  if loading (ui s) then
    exists before m,
      messages (ui s) = before ++ [m] /\
      in_flight s =
        [{| url := lit "http://localhost:3001/api/chat";
            data := JObject [(lit "message", text m)] |}]
  else in_flight s = [].

(** A page clock whose first readings are those of [l], and that reads
    [t] from then on. *)
Definition reading (l : list N) (t : N) : nat -> N :=
  fun k => nth k l t.

End Client.

(** ** Between the two: what axios makes of a response *)

Module Wire.
Import Client.

(** [validateStatus] as axios ships it: a status from 200 to 299
    fulfils the promise, [res.data] being the parsed body; any other
    rejects it. *)
Definition deliver (r : Server.HttpResponse) : AxiosOutcome :=
  if (200 <=? Server.status r)%N && (Server.status r <? 300)%N
  then Fulfilled (Server.body r)
  else Rejected (Raised (Server.body r)).

End Wire.

(** ** A request and its answer, end to end *)

Module Exchange.
Import Client.

(** The request of the client served by the backend, and the answer
    brought back by axios. The handler runs on a process of its own; were
    it to write no response, the promise would be rejected. *)
Definition round_trip (gemini : Server.Provider)
    (GEMINI_API_KEY : option jsstring) (request : PostRequest)
  : AxiosOutcome :=
  match Server.sent
          (Server.after gemini GEMINI_API_KEY (data request) Server.boot) with
  | [r] => Wire.deliver r
  | _ => Rejected (Raised JUndefined)
  end.

End Exchange.

(** ** The page: what [ChatInterface] renders, and its events *)

Module Page.
Import Client.

(** The event that [onKeyPress] hands over, as far as the handler reads
    it. *)
Record KeyboardEvent := { key : jsstring; shiftKey : bool }.

(** [handleKeyPress]: whether [preventDefault] was called, and the request
    that [handleSend] issued, if it was called and issued one. *)
Definition handleKeyPress (e : KeyboardEvent)
  : eff Browser (bool * option PostRequest) :=
  if JsString.eqb (key e) (lit "Enter") && negb (shiftKey e) then
    request <- handleSend ;;
    ret (true, request)
  else ret (false, None).

(** A [ListItem] of the message list, with what [MessageBubble] shows in
    it: the attributes that depend on the message (colours, sizes and the
    formatted time are left out). *)
Record Row := {
  item_key : jsstring;
  justifyContent : jsstring;
  flexDirection : jsstring;
  avatar : jsstring;
  bubble_text : jsvalue;
  bubble_align : jsstring
}.

Definition row (message : Message) : Row :=
  let isUser := same (sender message) user in
  {| item_key := id message;
     justifyContent := if isUser then lit "flex-end" else lit "flex-start";
     flexDirection := if isUser then lit "row-reverse" else lit "row";
     avatar := if isUser then lit "U" else lit "AI";
     bubble_text := text message;
     bubble_align := if isUser then lit "right" else lit "left" |}.

(** The chat window: the invitation to start, or the list with its
    loading indicator. *)
Inductive ChatWindow :=
| StartAConversation
| MessageList (rows : list Row) (progress : bool).

(** The parts of the rendered tree that depend on the state. *)
Record View := {
  window : ChatWindow;
  field_value : jsstring;
  field_disabled : bool;
  button_disabled : bool
}.

Definition render (w : Browser) : View :=
  {| window :=
       match List.length (messages w) with
       | O => StartAConversation
       | _ => MessageList (map row (messages w)) (loading w)
       end;
     field_value := input w;
     field_disabled := loading w;
     button_disabled := loading w || negb (truthy (JString (trim (input w)))) |}.

(** The loading indicator is on the page. *)
Definition progress_shown (v : View) : bool :=
  match window v with
  | StartAConversation => false
  | MessageList _ progress => progress
  end.

(** What reaches the component: a change of the text field, a key pressed
    in it, a click on the button, the settling of a request. *)
Inductive PageEvent :=
| Change (value : jsstring)
| KeyPress (e : KeyboardEvent)
| Click
| Settled (o : AxiosOutcome).

(** A disabled control receives no event; an enabled one runs its
    handler. The page is the one rendered from the state as it stands:
    the component has re-rendered since the event before. *)
Definition dispatch (s : Session) (ev : PageEvent) : Session :=
  let v := render (ui s) in
  match ev with
  | Change value =>
      if field_disabled v then s else step s (Types value)
  | KeyPress e =>
      if field_disabled v then s
      else
        match handleKeyPress e (ui s) with
        | (Normal (_, Some request), w) =>
            {| ui := w; in_flight := in_flight s ++ [request] |}
        | (_, w) => {| ui := w; in_flight := in_flight s |}
        end
  | Click =>
      if button_disabled v then s else step s Sends
  | Settled o => step s (Settles o)
  end.

Definition browse (evs : list PageEvent) (s : Session) : Session :=
  fold_left dispatch evs s.

(** A message that shows something: its text is not falsy, and not
    blank when it is the user's. *)
Definition shows_something (m : Message) : Prop :=
  truthy (text m) = true /\
  (sender m = user -> exists t, text m = JString t /\ blank t = false).

(** Readings of the clock taken two or more readings apart are at least
    two milliseconds apart: the messages, each of which takes two
    readings, are created at least two milliseconds from one another. *)
Definition spaced (page_clock : nat -> N) : Prop :=
  forall i j, i + 2 <= j -> (page_clock i + 2 <= page_clock j)%N.

(** The numbers in [ns] go up strictly. *)
Fixpoint ascending (ns : list N) : Prop :=
  match ns with
  | [] => True
  | n :: rest => Forall (fun m => (n < m)%N) rest /\ ascending rest
  end.

(** The ids of the log are the decimal forms of ascending numbers, each
    of them at most one more than a reading taken at least two readings
    ago. *)
Definition ids_in_order (w : Browser) : Prop :=
  exists ns,
    map id (messages w) = map toString ns /\
    ascending ns /\
    Forall (fun n => exists k, k + 2 <= reads w /\ (n <= clock w k + 1)%N) ns.

End Page.

(** ** Renders and commits *)

Module Render.
Import Client Page.

(** The handlers are closures of a render: [input] and [loading] are, in
    them, the values that the render was made from, and the setters only
    take effect at the next commit. [handleSend_of rendered] is
    [handleSend] as made by the render of the state [rendered], run on
    the state as it stands. *)
Definition handleSend_of (rendered : Browser)
  : eff Browser (option PostRequest) :=
  let input_ := input rendered in
  let loading_ := loading rendered in
  if negb (truthy (JString (trim input_))) || loading_ then ret None
  else
    now <- Date_now ;;
    date <- Date_now ;;
    let userMessage :=
      {| id := toString now; text := JString input_;
         sender := user; timestamp := date |} in
    setMessages (fun prev => prev ++ [userMessage]) ;;
    setInput [] ;;
    setLoading true ;;
    ret (Some {| url := lit "http://localhost:3001/api/chat";
                 data := JObject [(lit "message", JString input_)] |}).

(** [handleKeyPress] of the same render. *)
Definition handleKeyPress_of (rendered : Browser) (e : KeyboardEvent)
  : eff Browser (bool * option PostRequest) :=
  if JsString.eqb (key e) (lit "Enter") && negb (shiftKey e) then
    request <- handleSend_of rendered ;;
    ret (true, request)
  else ret (false, None).

(** A mounted component: the session as the updates so far leave it, and
    the state that the page on screen was rendered from. *)
Record Component := { current : Session; rendered : Browser }.

(** An event reaches the page, or the component re-renders and
    commits. *)
Inductive Occurrence :=
| Fires (ev : PageEvent)
| Commits.

Definition issue (c : Component)
    (r : completion (bool * option PostRequest) * Browser) : Component :=
  match r with
  | (Normal (_, Some request), w) =>
      {| current :=
           {| ui := w; in_flight := in_flight (current c) ++ [request] |};
         rendered := rendered c |}
  | (_, w) =>
      {| current := {| ui := w; in_flight := in_flight (current c) |};
         rendered := rendered c |}
  end.

(** The controls are enabled or not as the page on screen has them, and
    the handlers are those of that page; their updates go to the current
    state. A request that settles resumes its [handleSend], which reads
    nothing of the render. *)
Definition occur (c : Component) (o : Occurrence) : Component :=
  let v := render (rendered c) in
  match o with
  | Commits => {| current := current c; rendered := ui (current c) |}
  | Fires (Change value) =>
      if field_disabled v then c
      else {| current := step (current c) (Types value);
              rendered := rendered c |}
  | Fires (KeyPress e) =>
      if field_disabled v then c
      else issue c (handleKeyPress_of (rendered c) e (ui (current c)))
  | Fires Click =>
      if button_disabled v then c
      else
        issue c
          (bind (handleSend_of (rendered c))
             (fun request => ret (false, request)) (ui (current c)))
  | Fires (Settled o) =>
      {| current := step (current c) (Settles o); rendered := rendered c |}
  end.

Definition live (os : list Occurrence) (c : Component) : Component :=
  fold_left occur os c.

Definition mounted (page_clock : nat -> N) : Component :=
  {| current := mount page_clock; rendered := ui (mount page_clock) |}.

(** The events [evs], the component committing after each of them. *)
Definition each_committed (evs : list PageEvent) : list Occurrence :=
  flat_map (fun ev => [Fires ev; Commits]) evs.

Definition plain_enter : KeyboardEvent :=
  {| key := lit "Enter"; shiftKey := false |}.

End Render.

(** * Properties *)

(** ** Strings *)

Section TrimFacts.

Lemma trimStart_nil_blank (s : jsstring) :
  trimStart s = [] <-> blank s = true.
Proof.
  induction s as [|c s IH]; simpl.
  - tauto.
  - destruct (is_ws c); simpl.
    + exact IH.
    + split; discriminate.
Qed.

Lemma blank_app (s t : jsstring) :
  blank (s ++ t) = blank s && blank t.
Proof. apply forallb_app. Qed.

Lemma blank_rev (s : jsstring) : blank (rev s) = blank s.
Proof.
  induction s as [|c s IH]; simpl; [reflexivity|].
  rewrite blank_app, IH. simpl.
  rewrite andb_true_r. apply andb_comm.
Qed.

(** What [trimStart] leaves is empty or starts with a visible unit. *)
Lemma trimStart_head (s : jsstring) :
  match trimStart s with
  | [] => True
  | c :: _ => is_ws c = false
  end.
Proof.
  induction s as [|c s IH]; simpl; [exact I|].
  destruct (is_ws c) eqn:E; [exact IH | exact E].
Qed.

Lemma blank_trimStart (s : jsstring) :
  blank (trimStart s) = true -> trimStart s = [].
Proof.
  intros H. pose proof (trimStart_head s) as Hh.
  destruct (trimStart s) as [|c r]; [reflexivity|].
  simpl in H. rewrite Hh in H. discriminate.
Qed.

(** [!input.trim()] holds exactly for the blank inputs. *)
Lemma trim_nil_blank (s : jsstring) : trim s = [] <-> blank s = true.
Proof.
  unfold trim, trimEnd. split.
  - intros H.
    apply (f_equal (@rev N)) in H. rewrite rev_involutive in H. simpl in H.
    apply trimStart_nil_blank in H. rewrite blank_rev in H.
    apply blank_trimStart in H. apply trimStart_nil_blank. exact H.
  - intros H. apply trimStart_nil_blank in H. rewrite H. reflexivity.
Qed.

Lemma truthy_trim (s : jsstring) :
  truthy (JString (trim s)) = negb (blank s).
Proof.
  destruct (blank s) eqn:E.
  - apply trim_nil_blank in E. rewrite E. reflexivity.
  - simpl. destruct (trim s) eqn:T; [|reflexivity].
    apply trim_nil_blank in T. congruence.
Qed.

Lemma digits_inj (d d' : Decimal.uint) : digits d = digits d' -> d = d'.
Proof.
  revert d'.
  induction d; intros d' H; destruct d'; simpl in H;
    try discriminate; try reflexivity;
    injection H as H; f_equal; auto.
Qed.

(** Two readings print alike only when they are the same. *)
Lemma toString_inj (n m : N) : toString n = toString m -> n = m.
Proof.
  unfold toString. intros H.
  apply DecimalN.Unsigned.to_uint_inj, digits_inj, H.
Qed.

End TrimFacts.

(** ** The chat proxy service *)

Module ServerFacts.
Import Server.

Ltac run_handler :=
  unfold after, handleChat, try_catch, bind, get_prop, res_json,
    res_status_json, console_error, generateContent, modify, ret, throw.

(** The five ways through the handler. *)

Lemma handleChat_unreadable g key req_body w :
  nullish req_body = true ->
  exists e,
    handleChat g key req_body w =
      (Normal tt,
       {| sent := sent w ++ [internal_error];
          console := console w ++ [(lit "Error in chat endpoint:", e)];
          generate_calls := generate_calls w |}).
Proof.
  intros Hn. run_handler. rewrite Hn. eexists. reflexivity.
Qed.

Lemma handleChat_invalid g key req_body w :
  nullish req_body = false ->
  valid_message (message_of req_body) = false ->
  handleChat g key req_body w =
    (Normal tt,
     {| sent := sent w ++ [bad_request];
        console := console w;
        generate_calls := generate_calls w |}).
Proof.
  intros Hn Hv. run_handler. rewrite Hn.
  unfold valid_message, message_of in Hv.
  replace (negb (truthy (get_own req_body (lit "message")))
           || negb (is_string (get_own req_body (lit "message"))))
    with true
    by (rewrite <- negb_andb, Hv; reflexivity).
  reflexivity.
Qed.

Lemma valid_message_cases (v : jsvalue) :
  valid_message v = true <-> exists m, v = JString m /\ m <> [].
Proof.
  unfold valid_message. split.
  - destruct v as [| | | |s| |]; simpl;
      rewrite ?andb_false_r; try discriminate.
    intros H. exists s. split; [reflexivity|].
    destruct s; [discriminate H | discriminate].
  - intros [m [-> Hm]]. destruct m; [contradiction | reflexivity].
Qed.

Lemma valid_not_nullish (req_body : jsvalue) :
  valid_message (message_of req_body) = true -> nullish req_body = false.
Proof.
  destruct req_body; simpl; try discriminate; reflexivity.
Qed.

Lemma handleChat_valid g key req_body w :
  valid_message (message_of req_body) = true ->
  handleChat g key req_body w =
    if negb (truthy (env_value key)) then
      (Normal tt,
       {| sent := sent w ++ [not_configured];
          console := console w;
          generate_calls := generate_calls w |})
    else
      let call :=
        {| api_key := env_value key;
           model_params :=
             JObject [(lit "model", JString (lit "gemini-2.0-flash"))];
           request := message_of req_body |} in
      let calls := generate_calls w ++ [call] in
      match g call with
      | GeneratedText t =>
          (Normal tt,
           {| sent := sent w ++
                [{| status := 200;
                    body := JObject [(lit "response", JString t)] |}];
              console := console w;
              generate_calls := calls |})
      | GenerateRejected e | TextThrew e =>
          (Normal tt,
           {| sent := sent w ++ [internal_error];
              console := console w ++ [(lit "Error in chat endpoint:", e)];
              generate_calls := calls |})
      end.
Proof.
  intros Hv. pose proof (valid_not_nullish _ Hv) as Hn.
  run_handler. rewrite Hn.
  unfold valid_message, message_of in Hv.
  replace (negb (truthy (get_own req_body (lit "message")))
           || negb (is_string (get_own req_body (lit "message"))))
    with false
    by (rewrite <- negb_andb, Hv; reflexivity).
  destruct (negb (truthy (env_value key))); [reflexivity|].
  unfold message_of.
  destruct (g _); reflexivity.
Qed.

(** Whatever the request, the configuration and the provider, nothing
    is thrown out of the handler and one response is written. *)
Lemma handleChat_total g key req_body w :
  exists r,
    fst (handleChat g key req_body w) = Normal tt /\
    replied w (after g key req_body w) r.
Proof.
  unfold replied, after.
  destruct (nullish req_body) eqn:Hn.
  - destruct (handleChat_unreadable g key req_body w Hn) as [e ->].
    eexists; split; reflexivity.
  - destruct (valid_message (message_of req_body)) eqn:Hv.
    + rewrite (handleChat_valid g key req_body w Hv).
      destruct (negb _); [eexists; split; reflexivity|].
      cbv zeta. destruct (g _); eexists; split; reflexivity.
    + rewrite (handleChat_invalid g key req_body w Hn Hv).
      eexists; split; reflexivity.
Qed.

Lemma replied_inj w w' r r' : replied w w' r -> replied w w' r' -> r = r'.
Proof.
  unfold replied. intros H H'. rewrite H in H'.
  apply app_inv_head in H'. now injection H'.
Qed.

Lemma absent_message (req_body : jsvalue) :
  has_own req_body (lit "message") = false ->
  message_of req_body = JUndefined.
Proof.
  unfold message_of, has_own, get_own.
  destruct req_body; try reflexivity.
  destruct (lookup _ _); [discriminate | reflexivity].
Qed.

Lemma invalid_message_cases (req_body : jsvalue) :
  valid_message (message_of req_body) = false <->
  has_own req_body (lit "message") = false \/
  is_string (message_of req_body) = false \/
  message_of req_body = JString [].
Proof.
  split.
  - unfold valid_message. intros H.
    destruct (is_string (message_of req_body)) eqn:Hs; [|tauto].
    right; right.
    destruct (message_of req_body) as [| | | |s| |]; try discriminate Hs.
    destruct s; [reflexivity | discriminate H].
  - intros [H | [H | H]].
    + now rewrite (absent_message _ H).
    + unfold valid_message. rewrite H. apply andb_false_r.
    + now rewrite H.
Qed.

(** A request that passes validation is never answered with 400. *)
Lemma handleChat_valid_status g key req_body w r :
  valid_message (message_of req_body) = true ->
  replied w (after g key req_body w) r ->
  status r <> 400%N.
Proof.
  intros Hv Hr. unfold after, replied in Hr.
  rewrite (handleChat_valid g key req_body w Hv) in Hr.
  destruct (negb (truthy (env_value key)));
    [|cbv zeta in Hr; destruct (g _)];
    simpl in Hr; apply app_inv_head in Hr; injection Hr as <-;
    discriminate.
Qed.

(** C3, as stated, fails: the body [{message: ""}] has a [message], and
    that [message] is a string, yet the handler answers 400 with an
    [error] field. *)
Lemma C3_empty_message_refused :
  let req_body := JObject [(lit "message", JString (lit ""))] in
  has_own req_body (lit "message") = true /\
  is_string (message_of req_body) = true /\
  after (answers (lit "Hello")) (Some (lit "secret")) req_body boot =
    {| sent := [bad_request]; console := []; generate_calls := [] |} /\
  status bad_request = 400%N /\
  has_own (body bad_request) (lit "error") = true.
Proof. repeat split. Qed.

(** C3, amended: for a request body whose properties can be read, the
    handler answers 400 with an [error] field exactly when [message] is
    absent, is not a string, or is the empty string; a non-empty string
    never draws the validation error. *)
Theorem C3_validation_error_iff g key req_body w :
  nullish req_body = false ->
  (exists b,
      replied w (after g key req_body w) {| status := 400; body := b |} /\
      has_own b (lit "error") = true)
  <->
  (has_own req_body (lit "message") = false \/
   is_string (message_of req_body) = false \/
   message_of req_body = JString []).
Proof.
  intros Hn. rewrite <- invalid_message_cases. split.
  - intros [b [Hr _]].
    destruct (valid_message (message_of req_body)) eqn:Hv; [|reflexivity].
    exfalso. now apply (handleChat_valid_status g key req_body w _ Hv Hr).
  - intros Hv. exists (body bad_request). split; [|reflexivity].
    unfold replied, after.
    now rewrite (handleChat_invalid g key req_body w Hn Hv).
Qed.

(** The empty body [{}]: readable, no [message], answered 400. *)
Lemma C3_validation_error_iff_witness :
  nullish (JObject []) = false /\
  ((exists b,
      replied boot (after (answers (lit "Hello")) None (JObject []) boot)
        {| status := 400; body := b |} /\
      has_own b (lit "error") = true)
   <->
   (has_own (JObject []) (lit "message") = false \/
    is_string (message_of (JObject [])) = false \/
    message_of (JObject []) = JString [])).
Proof.
  split; [reflexivity|].
  apply (C3_validation_error_iff (answers (lit "Hello")) None (JObject []) boot).
  reflexivity.
Defined.

(** C4: a request whose [message] passes validation, served by a process
    without [GEMINI_API_KEY], is answered 500 with an [error] field,
    whatever the message, and the provider is not called. *)
Theorem C4_missing_credential g req_body w m :
  message_of req_body = JString m ->
  m <> [] ->
  let w' := after g None req_body w in
  fst (handleChat g None req_body w) = Normal tt /\
  replied w w' not_configured /\
  status not_configured = 500%N /\
  has_own (body not_configured) (lit "error") = true /\
  generate_calls w' = generate_calls w.
Proof.
  intros Hm Hne w'. subst w'. unfold replied, after.
  assert (Hv : valid_message (message_of req_body) = true)
    by (apply valid_message_cases; eauto).
  rewrite (handleChat_valid g None req_body w Hv).
  repeat split.
Qed.

(** A question asked of a process that has no key. *)
Lemma C4_missing_credential_witness :
  let g := answers (lit "Hello") in
  let req_body :=
    JObject [(lit "message", JString (lit "What is a commit?"))] in
  message_of req_body = JString (lit "What is a commit?") /\
  lit "What is a commit?" <> [] /\
  fst (handleChat g None req_body boot) = Normal tt /\
  replied boot (after g None req_body boot) not_configured /\
  status not_configured = 500%N /\
  has_own (body not_configured) (lit "error") = true /\
  generate_calls (after g None req_body boot) = generate_calls boot.
Proof.
  intros g req_body.
  split; [reflexivity|]. split; [discriminate|].
  apply (C4_missing_credential g req_body boot (lit "What is a commit?"));
    [reflexivity | discriminate].
Defined.

(** C5: with a valid [message] and the key configured, the handler calls
    the provider once, the message alone being the prompt (the model is
    asked for by name only, nothing else is passed), and answers the
    generated text [t] with 200 and the body [{response: t}]. *)
Theorem C5_generated_text_returned g key req_body w m t :
  message_of req_body = JString m ->
  m <> [] ->
  key <> [] ->
  g (call_for key (JString m)) = GeneratedText t ->
  let w' := after g (Some key) req_body w in
  fst (handleChat g (Some key) req_body w) = Normal tt /\
  replied w w'
    {| status := 200; body := JObject [(lit "response", JString t)] |} /\
  generate_calls w' = generate_calls w ++ [call_for key (JString m)] /\
  console w' = console w.
Proof.
  intros Hm Hne Hk Hg w'. subst w'. unfold replied, after.
  assert (Hv : valid_message (message_of req_body) = true)
    by (apply valid_message_cases; eauto).
  rewrite (handleChat_valid g (Some key) req_body w Hv).
  replace (negb (truthy (env_value (Some key)))) with false
    by (destruct key; [contradiction | reflexivity]).
  cbv zeta. simpl env_value. rewrite Hm.
  fold (call_for key (JString m)). rewrite Hg.
  repeat split.
Qed.

(** ["Hi"] asked with a key, the provider answering ["Hello"]. *)
Lemma C5_generated_text_returned_witness :
  let g := answers (lit "Hello") in
  let req_body := JObject [(lit "message", JString (lit "Hi"))] in
  let w' := after g (Some (lit "secret")) req_body boot in
  message_of req_body = JString (lit "Hi") /\
  lit "Hi" <> [] /\
  lit "secret" <> [] /\
  g (call_for (lit "secret") (JString (lit "Hi")))
    = GeneratedText (lit "Hello") /\
  fst (handleChat g (Some (lit "secret")) req_body boot) = Normal tt /\
  replied boot w'
    {| status := 200;
       body := JObject [(lit "response", JString (lit "Hello"))] |} /\
  generate_calls w' =
    generate_calls boot ++ [call_for (lit "secret") (JString (lit "Hi"))] /\
  console w' = console boot.
Proof.
  intros g req_body w'.
  split; [reflexivity|]. split; [discriminate|]. split; [discriminate|].
  split; [reflexivity|].
  apply (C5_generated_text_returned g (lit "secret") req_body boot
           (lit "Hi") (lit "Hello"));
    [reflexivity | discriminate | discriminate | reflexivity].
Defined.

(** C6: when the provider call throws, be it [generateContent] that
    rejects or [text()] that throws, the handler completes normally,
    logs the exception and answers 500 with the fixed body
    [{error: 'Internal server error'}], in which nothing of the
    exception [e] appears. *)
Theorem C6_provider_exception_hidden g key req_body w m e :
  message_of req_body = JString m ->
  m <> [] ->
  key <> [] ->
  g (call_for key (JString m)) = GenerateRejected e \/
  g (call_for key (JString m)) = TextThrew e ->
  handleChat g (Some key) req_body w =
    (Normal tt,
     {| sent := sent w ++ [internal_error];
        console := console w ++ [(lit "Error in chat endpoint:", e)];
        generate_calls := generate_calls w ++ [call_for key (JString m)] |}).
Proof.
  intros Hm Hne Hk Hg.
  assert (Hv : valid_message (message_of req_body) = true)
    by (apply valid_message_cases; eauto).
  rewrite (handleChat_valid g (Some key) req_body w Hv).
  replace (negb (truthy (env_value (Some key)))) with false
    by (destruct key; [contradiction | reflexivity]).
  cbv zeta. simpl env_value. rewrite Hm.
  fold (call_for key (JString m)).
  destruct Hg as [-> | ->]; reflexivity.
Qed.

(** A provider that rejects with a message naming the key: the body
    of the answer does not show it. *)
Lemma C6_provider_exception_hidden_witness :
  let e := Raised (JString (lit "429 quota exceeded for key secret")) in
  let g := rejects e in
  let req_body := JObject [(lit "message", JString (lit "Hi"))] in
  message_of req_body = JString (lit "Hi") /\
  lit "Hi" <> [] /\
  lit "secret" <> [] /\
  (g (call_for (lit "secret") (JString (lit "Hi"))) = GenerateRejected e \/
   g (call_for (lit "secret") (JString (lit "Hi"))) = TextThrew e) /\
  handleChat g (Some (lit "secret")) req_body boot =
    (Normal tt,
     {| sent := sent boot ++ [internal_error];
        console := console boot ++ [(lit "Error in chat endpoint:", e)];
        generate_calls :=
          generate_calls boot ++
            [call_for (lit "secret") (JString (lit "Hi"))] |}).
Proof.
  intros e g req_body.
  split; [reflexivity|]. split; [discriminate|]. split; [discriminate|].
  split; [left; reflexivity|].
  apply (C6_provider_exception_hidden g (lit "secret") req_body boot
           (lit "Hi") e);
    [reflexivity | discriminate | discriminate | left; reflexivity].
Defined.

(** C10, as stated, fails for a request without a readable body: with
    [req.body] undefined the [message] is absent, and with the key
    missing as well the answer is the generic 500 of the [catch], not
    the 400 of the validation. *)
Lemma C10_unreadable_body_answered_500 :
  let w' := after (answers (lit "Hello")) None JUndefined boot in
  has_own JUndefined (lit "message") = false /\
  sent w' = [internal_error] /\
  status internal_error = 500%N /\
  ~ replied boot w' bad_request.
Proof.
  cbv zeta. split; [reflexivity|]. split; [reflexivity|].
  split; [reflexivity|].
  unfold replied. intros H. discriminate H.
Qed.

(** C10, amended: validation comes first for every request whose body
    can be read (is neither [null] nor [undefined]). Such a request,
    when its [message] is absent or is not a string, is answered 400
    whatever the configuration, a missing key included; and the 500 of
    the missing key is only ever the answer to a request that passed
    validation. *)
Theorem C10_validation_precedes_configuration g key req_body w :
  nullish req_body = false ->
  let w' := after g key req_body w in
  (has_own req_body (lit "message") = false \/
   is_string (message_of req_body) = false ->
   replied w w' bad_request /\ generate_calls w' = generate_calls w) /\
  (replied w w' not_configured ->
   valid_message (message_of req_body) = true /\
   truthy (env_value key) = false).
Proof.
  intros Hn w'. subst w'. unfold replied, after. split.
  - intros H.
    assert (Hv : valid_message (message_of req_body) = false)
      by (apply invalid_message_cases; tauto).
    rewrite (handleChat_invalid g key req_body w Hn Hv). split; reflexivity.
  - destruct (valid_message (message_of req_body)) eqn:Hv.
    + rewrite (handleChat_valid g key req_body w Hv).
      destruct (truthy (env_value key)); [|split; reflexivity].
      simpl negb. cbv iota zeta.
      destruct (g _); simpl; intros H; apply app_inv_head in H;
        discriminate H.
    + rewrite (handleChat_invalid g key req_body w Hn Hv). simpl.
      intros H. apply app_inv_head in H. discriminate H.
Qed.

(** [{message: 123}] sent to a process that has no key: 400, not 500. *)
Lemma C10_validation_precedes_configuration_witness :
  let g := answers (lit "Hello") in
  let req_body := JObject [(lit "message", JNumber (int 123))] in
  let w' := after g None req_body boot in
  nullish req_body = false /\
  (has_own req_body (lit "message") = false \/
   is_string (message_of req_body) = false ->
   replied boot w' bad_request /\
   generate_calls w' = generate_calls boot) /\
  (replied boot w' not_configured ->
   valid_message (message_of req_body) = true /\
   truthy (env_value None) = false).
Proof.
  intros g req_body w'.
  split; [reflexivity|].
  apply (C10_validation_precedes_configuration g None req_body boot).
  reflexivity.
Defined.

End ServerFacts.

(** ** The session state manager *)

Module ClientFacts.
Import Client.

Ltac run_client :=
  unfold handleSend, handleSend_resume, try_finally, try_catch, bind, gets,
    get_prop, await, setMessages, setInput, setLoading, console_error,
    Date_now, modify, ret, throw.

(** *** The guard *)

Lemma handleSend_guard (w : Browser) :
  blank (input w) = true \/ loading w = true ->
  handleSend w = (Normal None, w).
Proof.
  intros H. run_client. rewrite truthy_trim, negb_involutive.
  destruct H as [-> | ->]; [reflexivity|].
  rewrite orb_true_r. reflexivity.
Qed.

Lemma handleSend_accepts (w : Browser) :
  blank (input w) = false ->
  loading w = false ->
  handleSend w =
    (Normal (Some {| url := lit "http://localhost:3001/api/chat";
                     data := JObject [(lit "message", JString (input w))] |}),
     {| messages := messages w ++
          [{| id := toString (clock w (reads w));
              text := JString (input w);
              sender := user;
              timestamp := clock w (S (reads w)) |}];
        input := [];
        loading := true;
        clock := clock w;
        reads := S (S (reads w));
        console := console w |}).
Proof.
  intros Hb Hl. run_client. rewrite truthy_trim, negb_involutive, Hb, Hl.
  reflexivity.
Qed.

(** *** The continuation *)

Lemma resume_rejected (e : exn) (w : Browser) :
  handleSend_resume (Rejected e) w =
    (Normal tt,
     {| messages := messages w ++
          [{| id := toString (clock w (reads w) + 1);
              text := JString could_not_get_response;
              sender := bot;
              timestamp := clock w (S (reads w)) |}];
        input := input w;
        loading := false;
        clock := clock w;
        reads := S (S (reads w));
        console := console w ++ [(lit "Error sending message:", e)] |}).
Proof. reflexivity. Qed.

Lemma resume_fulfilled (res_data : jsvalue) (w : Browser) :
  nullish res_data = false ->
  handleSend_resume (Fulfilled res_data) w =
    (Normal tt,
     {| messages := messages w ++
          [{| id := toString (clock w (reads w) + 1);
              text := or_else (get_own res_data (lit "reply"))
                        (JString no_response);
              sender := bot;
              timestamp := clock w (S (reads w)) |}];
        input := input w;
        loading := false;
        clock := clock w;
        reads := S (S (reads w));
        console := console w |}).
Proof.
  intros Hn. run_client. rewrite Hn. reflexivity.
Qed.

Lemma resume_unreadable (res_data : jsvalue) (w : Browser) :
  nullish res_data = true ->
  exists e,
    handleSend_resume (Fulfilled res_data) w =
      (Normal tt,
       {| messages := messages w ++
            [{| id := toString (clock w (S (reads w)) + 1);
                text := JString could_not_get_response;
                sender := bot;
                timestamp := clock w (S (S (reads w))) |}];
          input := input w;
          loading := false;
          clock := clock w;
          reads := S (S (S (reads w)));
          console := console w ++ [(lit "Error sending message:", e)] |}).
Proof.
  intros Hn. run_client. rewrite Hn. eexists. reflexivity.
Qed.

(** Whatever the way the request settled: no exception escapes, one bot
    message is appended to the log as it stood, and the session is no
    longer loading. *)
Lemma resume_spec (o : AxiosOutcome) (w : Browser) :
  exists m w',
    handleSend_resume o w = (Normal tt, w') /\
    messages w' = messages w ++ [m] /\
    view m = (bot, displayed o) /\
    loading w' = false /\
    input w' = input w /\
    clock w' = clock w.
Proof.
  destruct o as [res_data | e].
  - destruct (nullish res_data) eqn:Hn.
    + destruct (resume_unreadable res_data w Hn) as [e ->].
      do 2 eexists. split; [reflexivity|]. simpl.
      unfold view, displayed. rewrite Hn. simpl. repeat split.
    + rewrite (resume_fulfilled res_data w Hn).
      do 2 eexists. split; [reflexivity|]. simpl.
      unfold view, displayed. rewrite Hn. simpl. repeat split.
  - rewrite resume_rejected.
    do 2 eexists. split; [reflexivity|]. simpl. repeat split.
Qed.

(** *** One request at a time *)

Lemma due_snoc (next x : Sender) (l : list Sender) :
  due next l = Some x -> due next (l ++ [x]) = Some (other x).
Proof.
  revert next. induction l as [|y l IH]; simpl; intros next H.
  - injection H as <-. destruct next; reflexivity.
  - destruct (same y next); [auto | discriminate].
Qed.

Lemma run_app (a b : list Action) (s : Session) :
  run (a ++ b) s = run b (run a s).
Proof. apply fold_left_app. Qed.

Lemma step_keeps (s : Session) (a : Action) :
  settled_or_waiting s -> settled_or_waiting (step s a).
Proof.
  destruct s as [w fl]. unfold settled_or_waiting, alternates. simpl.
  intros [Halt Hfl]. destruct a as [t | | o]; simpl.
  - tauto.
  - destruct (loading w) eqn:Hl.
    + rewrite (handleSend_guard w (or_intror Hl)). simpl.
      rewrite Hl. tauto.
    + destruct (blank (input w)) eqn:Hb.
      * rewrite (handleSend_guard w (or_introl Hb)). simpl.
        rewrite Hl. tauto.
      * rewrite (handleSend_accepts w Hb Hl). simpl. split.
        -- rewrite map_app. simpl. now apply (due_snoc user user).
        -- subst fl. do 2 eexists. split; reflexivity.
  - destruct fl as [|request rest]; simpl; [tauto|].
    destruct (loading w) eqn:Hl; [|discriminate Hfl].
    destruct Hfl as [before [m [_ Hfl]]].
    injection Hfl as _ ->.
    destruct (resume_spec o w) as [m' [w' [-> [Hm [Hv [Hl' _]]]]]]. simpl.
    rewrite Hl', Hm, map_app. simpl. split; [|reflexivity].
    replace (sender m') with bot by (now injection Hv).
    now apply (due_snoc user bot).
Qed.

(** Whatever is typed, sent and settled, each action on a component
    that has re-rendered since the one before, at most one request is in
    flight and the log alternates. *)
Lemma reachable_settled_or_waiting (s : Session) :
  reachable s -> settled_or_waiting s.
Proof.
  intros [page_clock [acts ->]].
  assert (H0 : settled_or_waiting (mount page_clock))
    by (split; reflexivity).
  revert H0. generalize (mount page_clock).
  induction acts as [|a acts IH]; intros s0 H0; simpl; [exact H0|].
  apply IH, step_keeps, H0.
Qed.

Lemma reachable_one_in_flight (s : Session) :
  reachable s -> List.length (in_flight s) <= 1.
Proof.
  intros H. apply reachable_settled_or_waiting in H as [_ H].
  destruct (loading (ui s)).
  - destruct H as [? [? [_ ->]]]. simpl. lia.
  - rewrite H. simpl. lia.
Qed.

(** *** Submitting *)

(** C2: when the input is empty or blank, or while a request is
    pending, [handleSend] returns at its guard: the log, the pending
    flag, the input and everything else of the session are as before,
    and no request is issued. *)
Theorem C2_guarded_submit_is_noop (s : Session) :
  blank (input (ui s)) = true \/ loading (ui s) = true ->
  handleSend (ui s) = (Normal None, ui s) /\
  step s Sends = s.
Proof.
  intros H. pose proof (handleSend_guard (ui s) H) as Hg.
  split; [exact Hg|].
  destruct s as [w fl]. simpl in *. now rewrite Hg.
Qed.

(** A space, a tab, a no-break space and a line feed typed in a fresh
    component. *)
Lemma C2_guarded_submit_is_noop_witness :
  let s := step (mount (reading [] 1730000000000))
             (Types [32; 9; 160; 10]%N) in
  (blank (input (ui s)) = true \/ loading (ui s) = true) /\
  handleSend (ui s) = (Normal None, ui s) /\
  step s Sends = s.
Proof.
  intros s. split; [left; reflexivity|].
  apply (C2_guarded_submit_is_noop s). left; reflexivity.
Defined.

(** *** Turns taken one after the other *)

Lemma play_turn (t : Turn) (s : Session) :
  loading (ui s) = false ->
  in_flight s = [] ->
  let s' := run (play t) s in
  map view (messages (ui s')) =
    map view (messages (ui s)) ++ (if accepted t then exchange t else []) /\
  loading (ui s') = false /\
  in_flight s' = [].
Proof.
  destruct s as [w fl], t as [typed o]. cbv zeta.
  cbn [ui in_flight]. intros Hl ->.
  unfold accepted, exchange, run, play.
  cbn [fold_left step fst snd ui in_flight].
  set (w1 := snd (setInput typed w)).
  assert (Hl1 : loading w1 = false) by exact Hl.
  assert (Hi1 : input w1 = typed) by reflexivity.
  assert (Hm1 : messages w1 = messages w) by reflexivity.
  clearbody w1.
  destruct (blank typed) eqn:Hb; cbn [negb].
  - rewrite (handleSend_guard w1 (or_introl (eq_trans (f_equal blank Hi1) Hb))).
    cbn [ui in_flight]. rewrite app_nil_r, Hm1. auto.
  - rewrite (handleSend_accepts w1 (eq_trans (f_equal blank Hi1) Hb) Hl1).
    cbn [ui in_flight app].
    match goal with |- context [handleSend_resume o ?w2] =>
      destruct (resume_spec o w2) as [m [w' [-> [Hm [Hv [Hl' _]]]]]]
    end.
    cbn [snd messages] in *.
    rewrite Hm, !map_app, Hm1, Hi1. cbn [map]. rewrite Hv, <- app_assoc.
    auto.
Qed.

Lemma play_turns (turns : list Turn) (s : Session) :
  loading (ui s) = false ->
  in_flight s = [] ->
  let s' := run (flat_map play turns) s in
  map view (messages (ui s')) =
    map view (messages (ui s)) ++ flat_map exchange (filter accepted turns) /\
  loading (ui s') = false /\
  in_flight s' = [].
Proof.
  revert s. induction turns as [|t turns IH]; intros s Hl Hfl.
  - simpl. rewrite app_nil_r. auto.
  - cbv zeta. change (flat_map play (t :: turns))
      with (play t ++ flat_map play turns).
    rewrite run_app.
    destruct (play_turn t s Hl Hfl) as [Hv [Hl' Hfl']].
    destruct (IH _ Hl' Hfl') as [Hv2 [Hl2 Hfl2]].
    split; [|auto].
    rewrite Hv2, Hv, <- app_assoc. f_equal.
    simpl. destruct (accepted t); reflexivity.
Qed.

(** C7: when every submission waits for the reply to the one before,
    the log is the sequence of the accepted turns in the order they were
    submitted, each turn being the user's message followed by the bot's
    reply or error message for that same turn; and the session ends
    idle, nothing in flight. (A blank submission is not accepted and
    leaves nothing.) *)
Theorem C7_turns_alternate (page_clock : nat -> N) (turns : list Turn) :
  let s := run (flat_map play turns) (mount page_clock) in
  map view (messages (ui s)) = flat_map exchange (filter accepted turns) /\
  map sender (messages (ui s)) =
    flat_map (fun _ => [user; bot]) (filter accepted turns) /\
  loading (ui s) = false /\
  in_flight s = [].
Proof.
  destruct (play_turns turns (mount page_clock) eq_refl eq_refl)
    as [Hv [Hl Hfl]].
  cbv zeta in *. change (map view (messages (ui (mount page_clock))) ++ ?l)
    with l in Hv.
  split; [exact Hv|]. split; [|auto].
  replace (map sender (messages (ui (run (flat_map play turns)
                                       (mount page_clock)))))
    with (map fst (map view (messages (ui (run (flat_map play turns)
                                             (mount page_clock))))))
    by (rewrite map_map; reflexivity).
  rewrite Hv. clear Hv.
  induction (filter accepted turns) as [|t l IH]; [reflexivity|].
  cbn [flat_map]. rewrite map_app, IH. reflexivity.
Qed.

(** *** Replies and failures *)

(** A status outside 200..299 reaches the handler as a rejection. *)
Lemma refused_status_rejects (r : Server.HttpResponse) :
  (Server.status r <? 200)%N || (300 <=? Server.status r)%N = true ->
  Wire.deliver r = Rejected (Raised (Server.body r)).
Proof.
  unfold Wire.deliver. intros H.
  destruct (N.leb_spec 200 (Server.status r));
    destruct (N.ltb_spec (Server.status r) 300); try reflexivity.
  apply orb_true_iff in H as [H | H];
    [apply N.ltb_lt in H | apply N.leb_le in H]; lia.
Qed.

(** A payload without [reply] shows the placeholder, whatever else it
    holds. *)
Lemma reply_absent_placeholder (res_data : jsvalue) :
  nullish res_data = false ->
  has_own res_data (lit "reply") = false ->
  displayed (Fulfilled res_data) = JString no_response.
Proof.
  intros Hn Hr. unfold displayed. rewrite Hn.
  unfold has_own in Hr. unfold get_own.
  destruct res_data; try reflexivity.
  destruct (lookup _ _); [discriminate | reflexivity].
Qed.

(** C1, on the code: the backend answers a valid request with
    [200 {response: "Hello"}]; delivered to the client, this payload
    makes [handleSend] append the placeholder, not ["Hello"], because
    the text is read from [res.data.reply]. *)
Theorem C1_response_field_not_read :
  let req_body := JObject [(lit "message", JString (lit "Hi"))] in
  let answer :=
    {| Server.status := 200;
       Server.body := JObject [(lit "response", JString (lit "Hello"))] |} in
  let s := run [Types (lit "Hi"); Sends] (mount (reading [] 1730000000000)) in
  map data (in_flight s) = [req_body] /\
  Server.sent (Server.after (Server.answers (lit "Hello"))
                 (Some (lit "secret")) req_body Server.boot) = [answer] /\
  map view (messages (ui (step s (Settles (Wire.deliver answer))))) =
    [(user, JString (lit "Hi"));
     (bot, JString (lit "No response received."))].
Proof. repeat split. Qed.

(** C9, as stated, fails for malformed payloads: a 200 whose body is
    not JSON is shown as the placeholder of the success path, and a 200
    whose [reply] is not a string is shown as it came; neither is the
    error string of the [catch]. *)
Lemma C9_malformed_payload_not_an_error :
  let s := run [Types (lit "Hi"); Sends] (mount (reading [] 1730000000000)) in
  let page := Fulfilled (JString (lit "<!DOCTYPE html>")) in
  let odd := Fulfilled (JObject [(lit "reply", JNumber (int 42))]) in
  map view (messages (ui (step s (Settles page)))) =
    [(user, JString (lit "Hi"));
     (bot, JString (lit "No response received."))] /\
  map view (messages (ui (step s (Settles odd)))) =
    [(user, JString (lit "Hi")); (bot, JNumber (int 42))] /\
  JString (lit "No response received.") <> JString could_not_get_response /\
  JNumber (int 42) <> JString could_not_get_response.
Proof. repeat split; discriminate. Qed.

(** C9, amended: however the request settles, [handleSend] completes
    without throwing, appends exactly one bot message to the log as it
    stood and leaves the session not pending. The text is the fixed
    error string when the promise is rejected (no response, or a status
    outside 200..299) and when the payload is [null] or [undefined];
    any other payload is taken as a success and shows its [reply], or
    the placeholder when [reply] is missing or falsy. *)
Theorem C9_settled_request_ends_idle (o : AxiosOutcome) (w : Browser) :
  exists m w',
    handleSend_resume o w = (Normal tt, w') /\
    messages w' = messages w ++ [m] /\
    sender m = bot /\
    text m =
      match o with
      | Rejected _ => JString could_not_get_response
      | Fulfilled res_data =>
          if nullish res_data then JString could_not_get_response
          else or_else (get_own res_data (lit "reply")) (JString no_response)
      end /\
    loading w' = false /\
    input w' = input w.
Proof.
  destruct (resume_spec o w) as [m [w' [Hr [Hm [Hv [Hl [Hi _]]]]]]].
  exists m, w'. unfold view, displayed in Hv. injection Hv as Hs Ht.
  repeat split; assumption.
Qed.

(** *** Message ids *)

(** What the [+ 1] achieves: under a clock that does not run backwards,
    a user message and the reply to it never share an id. *)
Lemma reply_id_differs (o : AxiosOutcome) (w : Browser) :
  (forall i j, i <= j -> (clock w i <= clock w j)%N) ->
  blank (input w) = false ->
  loading w = false ->
  exists u b,
    messages (snd (handleSend_resume o (snd (handleSend w)))) =
      messages w ++ [u; b] /\
    id u <> id b.
Proof.
  intros Hmono Hb Hl. rewrite (handleSend_accepts w Hb Hl). cbn [snd].
  assert (Hneq : forall k, reads w <= k ->
            toString (clock w (reads w)) <> toString (clock w k + 1)).
  { intros k Hk H. apply toString_inj in H.
    specialize (Hmono _ _ Hk). lia. }
  destruct o as [res_data | e].
  - destruct (nullish res_data) eqn:Hn.
    + match goal with |- context [handleSend_resume _ ?w1] =>
        destruct (resume_unreadable res_data w1 Hn) as [e ->]
      end.
      cbn [snd messages clock reads]. rewrite <- app_assoc.
      do 2 eexists. split; [reflexivity|]. cbn [id]. apply Hneq. lia.
    + match goal with |- context [handleSend_resume _ ?w1] =>
        rewrite (resume_fulfilled res_data w1 Hn)
      end.
      cbn [snd messages clock reads]. rewrite <- app_assoc.
      do 2 eexists. split; [reflexivity|]. cbn [id]. apply Hneq. lia.
  - rewrite resume_rejected.
    cbn [snd messages clock reads]. rewrite <- app_assoc.
    do 2 eexists. split; [reflexivity|]. cbn [id]. apply Hneq. lia.
Qed.

(** C8, on the code: under a clock that never runs backwards, a reply
    created at reading 1730000000850 gets that reading plus one as its
    id, and the message submitted one millisecond later gets the same
    id. The session is reachable, its three ids are not pairwise
    distinct, and the last is not greater than the one before. *)
Theorem C8_ids_collide :
  let page_clock :=
    reading [1730000000000; 1730000000000; 1730000000850; 1730000000850]%N
      1730000000851 in
  let acts :=
    play (lit "Hi", Fulfilled (JObject [(lit "reply", JString (lit "Hello"))]))
      ++ [Types (lit "again"); Sends] in
  let s := run acts (mount page_clock) in
  (forall i j, i <= j -> (page_clock i <= page_clock j)%N) /\
  reachable s /\
  map sender (messages (ui s)) = [user; bot; user] /\
  map id (messages (ui s)) =
    [toString 1730000000000; toString 1730000000851;
     toString 1730000000851] /\
  ~ NoDup (map id (messages (ui s))).
Proof.
  cbv zeta. split; [|split; [|split; [|split]]].
  - intros i j Hij. unfold reading.
    do 5 (destruct i as [|i]; [do 5 (destruct j as [|j]; [simpl; lia|]);
                               destruct j; simpl; lia|]).
    do 5 (destruct j as [|j]; [lia|]).
    destruct i, j; simpl; lia.
  - do 2 eexists. reflexivity.
  - reflexivity.
  - reflexivity.
  - intros H. vm_compute in H.
    inversion H as [|? ? _ H']. inversion H' as [|? ? Hin _].
    apply Hin. left. reflexivity.
Qed.

End ClientFacts.

(** ** The chat proxy service, further *)

Module ServerMore.
Import Server ServerFacts.

(** The three ways a request can be taken by the handler. *)
Lemma request_cases (req_body : jsvalue) :
  nullish req_body = true \/
  (nullish req_body = false /\ valid_message (message_of req_body) = false) \/
  valid_message (message_of req_body) = true.
Proof.
  destruct (valid_message (message_of req_body)) eqn:Hv; [tauto|].
  destruct (nullish req_body); tauto.
Qed.

Lemma unreadable_not_valid (req_body : jsvalue) :
  nullish req_body = true -> valid_message (message_of req_body) = false.
Proof. destruct req_body; simpl; try discriminate; reflexivity. Qed.

Ltac by_request g key req_body w :=
  unfold replied, after;
  destruct (request_cases req_body) as [Hn | [[Hn Hv] | Hv]];
  [ pose proof (unreadable_not_valid req_body Hn) as Hv;
    destruct (handleChat_unreadable g key req_body w Hn) as [e0 ->]
  | rewrite (handleChat_invalid g key req_body w Hn Hv)
  | rewrite (handleChat_valid g key req_body w Hv);
    destruct (truthy (env_value key)) eqn:Hk; cbn [negb]; cbv iota zeta;
    [ destruct (g _) as [e0|e0|t0] eqn:Hg | ] ];
  cbn [fst snd sent console generate_calls].

(** Every request gets one answer, and the answer has one of two
    shapes: whatever the body, the key and the provider, the handler
    completes without throwing and writes exactly one response; its
    status is 200, 400 or 500; its body has a [response] field exactly
    when the status is 200 and an [error] field exactly when it is
    not. *)
Theorem every_request_gets_one_answer g key req_body w :
  exists r,
    fst (handleChat g key req_body w) = Normal tt /\
    replied w (after g key req_body w) r /\
    (status r = 200 \/ status r = 400 \/ status r = 500)%N /\
    has_own (body r) (lit "response") = N.eqb (status r) 200 /\
    has_own (body r) (lit "error") = negb (N.eqb (status r) 200).
Proof.
  by_request g key req_body w; eexists; (split; [reflexivity|]);
    (split; [reflexivity|]); cbn [status body]; repeat split; auto.
Qed.

(** The handler keeps nothing from one request to the next: run on any
    process, it adds to the responses, to the console and to the
    provider's calls what it produces on a process just started. *)
Theorem handler_keeps_no_state g key req_body w :
  let fresh := after g key req_body boot in
  let w' := after g key req_body w in
  fst (handleChat g key req_body w) = fst (handleChat g key req_body boot) /\
  sent w' = sent w ++ sent fresh /\
  console w' = console w ++ console fresh /\
  generate_calls w' = generate_calls w ++ generate_calls fresh.
Proof.
  cbv zeta. unfold after.
  destruct (request_cases req_body) as [Hn | [[Hn Hv] | Hv]].
  - unfold handleChat, try_catch, bind, get_prop. rewrite Hn.
    cbn. rewrite app_nil_r. repeat split.
  - rewrite !(handleChat_invalid g key req_body _ Hn Hv).
    cbn. rewrite !app_nil_r. repeat split.
  - rewrite !(handleChat_valid g key req_body _ Hv).
    destruct (negb (truthy (env_value key))).
    + cbn. rewrite !app_nil_r. repeat split.
    + cbv zeta. cbn [boot generate_calls app].
      destruct (g _); cbn; rewrite ?app_nil_r; repeat split.
Qed.

(** The provider is called at most once per request, and exactly when
    the message passes validation and the key is a non-empty string; the
    call then carries that key, the model's name and the message as it
    came. *)
Theorem provider_called_when_valid_and_configured g key req_body w :
  generate_calls (after g key req_body w) =
    generate_calls w ++
      (if valid_message (message_of req_body) && truthy (env_value key)
       then [{| api_key := env_value key;
                model_params :=
                  JObject [(lit "model", JString (lit "gemini-2.0-flash"))];
                request := message_of req_body |}]
       else []).
Proof.
  by_request g key req_body w; rewrite Hv; cbn [andb];
    rewrite ?app_nil_r; reflexivity.
Qed.

(** A key set to the empty string counts as no key at all. *)
Theorem empty_key_is_no_key g req_body w :
  handleChat g (Some []) req_body w = handleChat g None req_body w.
Proof.
  destruct (request_cases req_body) as [Hn | [[Hn Hv] | Hv]].
  - unfold handleChat, try_catch, bind, get_prop. rewrite Hn. reflexivity.
  - now rewrite !(handleChat_invalid g _ req_body w Hn Hv).
  - now rewrite !(handleChat_valid g _ req_body w Hv).
Qed.

(** A body that is [null] or [undefined] is no validation error: the
    destructuring throws, the [catch] logs a TypeError and answers 500
    with the generic message, whatever the key, and the provider is not
    called. *)
Theorem unreadable_body_is_internal_error g key req_body w :
  nullish req_body = true ->
  exists what,
    handleChat g key req_body w =
      (Normal tt,
       {| sent := sent w ++ [internal_error];
          console :=
            console w ++ [(lit "Error in chat endpoint:", TypeError what)];
          generate_calls := generate_calls w |}).
Proof.
  intros Hn. unfold handleChat, try_catch, bind, get_prop. rewrite Hn.
  eexists. reflexivity.
Qed.

(** [undefined] for a body, and a key that would have worked. *)
Lemma unreadable_body_is_internal_error_witness :
  nullish JUndefined = true /\
  exists what,
    handleChat (answers (lit "Hello")) (Some (lit "secret")) JUndefined boot =
      (Normal tt,
       {| sent := sent boot ++ [internal_error];
          console :=
            console boot ++ [(lit "Error in chat endpoint:", TypeError what)];
          generate_calls := generate_calls boot |}).
Proof.
  split; [reflexivity|].
  apply (unreadable_body_is_internal_error (answers (lit "Hello"))
           (Some (lit "secret")) JUndefined boot).
  reflexivity.
Defined.

(** Only what the [catch] sees is logged: the console gets one line
    exactly when the answer is the generic 500; the validation error and
    the missing key leave the console as it was. *)
Theorem only_caught_errors_are_logged g key req_body w :
  let w' := after g key req_body w in
  (replied w w' internal_error /\
   exists e, console w' = console w ++ [(lit "Error in chat endpoint:", e)])
  \/
  (~ replied w w' internal_error /\ console w' = console w).
Proof.
  cbv zeta.
  by_request g key req_body w;
    try (left; split; [reflexivity | eexists; reflexivity]);
    right; (split; [|reflexivity]); intros H; apply app_inv_head in H;
    discriminate H.
Qed.

(** A 200 is only ever the provider's text: when the answer has status
    200, the message was a non-empty string, the key was a non-empty
    string, the provider generated a text for this call, and the body is
    that text under [response], nothing else. *)
Theorem success_is_the_generated_text g key req_body w r :
  replied w (after g key req_body w) r ->
  status r = 200%N ->
  exists m k t,
    message_of req_body = JString m /\ m <> [] /\
    key = Some k /\ k <> [] /\
    g (call_for k (JString m)) = GeneratedText t /\
    body r = JObject [(lit "response", JString t)].
Proof.
  intros Hr Hs. revert Hr.
  by_request g key req_body w; intros Hr; apply app_inv_head in Hr;
    injection Hr as <-; try discriminate Hs.
  apply valid_message_cases in Hv as [m [Hm Hne]].
  destruct key as [k|]; [|discriminate Hk].
  exists m, k, t0. rewrite Hm in Hg. cbn [env_value] in Hg.
  repeat split; auto.
  intros ->. discriminate Hk.
Qed.

(** ["Hi"] asked with a key, the provider answering ["Hello"]. *)
Lemma success_is_the_generated_text_witness :
  let g := answers (lit "Hello") in
  let req_body := JObject [(lit "message", JString (lit "Hi"))] in
  let r := {| status := 200;
              body := JObject [(lit "response", JString (lit "Hello"))] |} in
  replied boot (after g (Some (lit "secret")) req_body boot) r /\
  status r = 200%N /\
  exists m k t,
    message_of req_body = JString m /\ m <> [] /\
    Some (lit "secret") = Some k /\ k <> [] /\
    g (call_for k (JString m)) = GeneratedText t /\
    body r = JObject [(lit "response", JString t)].
Proof.
  intros g req_body r.
  split; [reflexivity|]. split; [reflexivity|].
  apply (success_is_the_generated_text g (Some (lit "secret")) req_body boot r);
    reflexivity.
Defined.

End ServerMore.

(** ** The session state manager, further *)

Module SessionMore.
Import Client ClientFacts Page.

(** *** What a step does to the log *)

Lemma handleSend_cases (w : Browser) :
  handleSend w = (Normal None, w) \/
  (blank (input w) = false /\ loading w = false).
Proof.
  destruct (loading w) eqn:Hl.
  - left. apply handleSend_guard. now right.
  - destruct (blank (input w)) eqn:Hb.
    + left. apply handleSend_guard. now left.
    + now right.
Qed.

Lemma step_appends (s : Session) (a : Action) :
  exists suffix, messages (ui (step s a)) = messages (ui s) ++ suffix.
Proof.
  destruct s as [w fl]. destruct a as [t | | o]; cbn [step ui in_flight].
  - exists []. now rewrite app_nil_r.
  - destruct (handleSend_cases w) as [-> | [Hb Hl]].
    + exists []. now rewrite app_nil_r.
    + rewrite (handleSend_accepts w Hb Hl). eexists. reflexivity.
  - destruct fl as [|request rest].
    + exists []. now rewrite app_nil_r.
    + destruct (resume_spec o w) as [m [w' [-> [Hm _]]]].
      exists [m]. exact Hm.
Qed.

Lemma run_appends (acts : list Action) (s : Session) :
  exists suffix, messages (ui (run acts s)) = messages (ui s) ++ suffix.
Proof.
  revert s. induction acts as [|a acts IH]; intros s.
  - exists []. now rewrite app_nil_r.
  - destruct (IH (step s a)) as [l2 H2].
    destruct (step_appends s a) as [l1 H1].
    exists (l1 ++ l2). cbn [run fold_left]. fold (run acts (step s a)).
    now rewrite H2, H1, app_assoc.
Qed.

(** The log only grows at its end: whatever is typed, sent or settled
    after a point, the messages logged up to that point are still there,
    unchanged and in the same order, as the beginning of the log. *)
Theorem log_only_grows (acts more : list Action) (s : Session) :
  exists suffix,
    messages (ui (run (acts ++ more) s)) =
      messages (ui (run acts s)) ++ suffix.
Proof.
  rewrite run_app. apply run_appends.
Qed.

(** *** Pending *)

Lemma run_reachable (page_clock : nat -> N) (acts : list Action) :
  settled_or_waiting (run acts (mount page_clock)).
Proof.
  apply reachable_settled_or_waiting. now exists page_clock, acts.
Qed.

(** Each action finding the component re-rendered, a request is in
    flight exactly while the session is pending, and never more than
    one. *)
Lemma one_request_while_pending (page_clock : nat -> N)
    (acts : list Action) :
  let s := run acts (mount page_clock) in
  List.length (in_flight s) = if loading (ui s) then 1 else 0.
Proof.
  cbv zeta. destruct (run_reachable page_clock acts) as [_ H].
  destruct (loading (ui _)).
  - destruct H as [? [? [_ ->]]]. reflexivity.
  - now rewrite H.
Qed.

Lemma due_last (next x y : Sender) (l : list Sender) :
  due next (l ++ [x]) = Some y -> y = other x.
Proof.
  revert next. induction l as [|z l IH]; cbn [app due]; intros next H.
  - destruct (same x next) eqn:E; [|discriminate].
    injection H as <-. destruct x, next; try discriminate E; reflexivity.
  - destruct (same z next); [eauto | discriminate].
Qed.

(** Each action finding the component re-rendered: while the session
    is pending, the log ends with a message of the user, and the request
    in flight posts the text of that message to the chat endpoint. *)
Lemma pending_request_is_for_last_message (page_clock : nat -> N)
    (acts : list Action) :
  let s := run acts (mount page_clock) in
  loading (ui s) = true ->
  exists before m,
    messages (ui s) = before ++ [m] /\
    sender m = user /\
    in_flight s =
      [{| url := lit "http://localhost:3001/api/chat";
          data := JObject [(lit "message", text m)] |}].
Proof.
  cbv zeta. intros Hl.
  destruct (run_reachable page_clock acts) as [Halt H].
  rewrite Hl in H, Halt. destruct H as [before [m [Hm Hfl]]].
  exists before, m. split; [exact Hm|]. split; [|exact Hfl].
  unfold alternates in Halt. rewrite Hm, map_app in Halt.
  apply due_last in Halt. destruct (sender m); [reflexivity | discriminate].
Qed.

(** Each action finding the component re-rendered, the session never
    stays pending past a settlement: after a request settles, however it
    settles, the session is not pending and nothing is in flight. *)
Lemma settlement_ends_pending (page_clock : nat -> N)
    (acts : list Action) (o : AxiosOutcome) :
  let s := step (run acts (mount page_clock)) (Settles o) in
  loading (ui s) = false /\ in_flight s = [].
Proof.
  cbv zeta. destruct (run_reachable page_clock acts) as [_ H].
  destruct (run acts (mount page_clock)) as [w fl].
  cbn [ui in_flight step] in *.
  destruct (loading w) eqn:Hl.
  - destruct H as [? [? [_ ->]]].
    destruct (resume_spec o w) as [m [w' [-> [_ [_ [Hl' _]]]]]].
    cbn [ui in_flight snd]. auto.
  - rewrite H. cbn [ui in_flight]. auto.
Qed.

(** *** Texts *)

Lemma not_blank_truthy (t : jsstring) :
  blank t = false -> truthy (JString t) = true.
Proof. destruct t; [discriminate | reflexivity]. Qed.

Lemma displayed_truthy (o : AxiosOutcome) : truthy (displayed o) = true.
Proof.
  destruct o as [res_data | e]; [|reflexivity].
  unfold displayed. destruct (nullish res_data); [reflexivity|].
  unfold or_else. destruct (truthy (get_own _ _)) eqn:E; [exact E|].
  reflexivity.
Qed.

Lemma step_shows_something (s : Session) (a : Action) :
  Forall shows_something (messages (ui s)) ->
  Forall shows_something (messages (ui (step s a))).
Proof.
  destruct s as [w fl]. destruct a as [t | | o]; cbn [step ui in_flight];
    intros H.
  - exact H.
  - destruct (handleSend_cases w) as [-> | [Hb Hl]]; [exact H|].
    rewrite (handleSend_accepts w Hb Hl). cbn [ui messages].
    apply Forall_app. split; [exact H|]. constructor; [|constructor].
    split; cbn [text sender].
    + now apply not_blank_truthy.
    + intros _. now exists (input w).
  - destruct fl as [|request rest]; [exact H|].
    destruct (resume_spec o w) as [m [w' [-> [Hm [Hv _]]]]].
    cbn [ui snd]. rewrite Hm. apply Forall_app. split; [exact H|].
    constructor; [|constructor]. unfold view in Hv. injection Hv as Hs Ht.
    split.
    + rewrite Ht. apply displayed_truthy.
    + rewrite Hs. discriminate.
Qed.

(** No message of the log is empty: in every session that can be
    reached, each message has a text that is not falsy (so neither
    missing nor the empty string), and each message of the user is a
    string with something other than white space in it. *)
Theorem every_message_shows_something (page_clock : nat -> N)
    (acts : list Action) :
  Forall shows_something (messages (ui (run acts (mount page_clock)))).
Proof.
  assert (H0 : Forall shows_something (messages (ui (mount page_clock))))
    by constructor.
  revert H0. generalize (mount page_clock).
  induction acts as [|a acts IH]; intros s H0; [exact H0|].
  apply IH, step_shows_something, H0.
Qed.

(** *** Ids, when the clock is kind *)

Lemma ascending_snoc (ns : list N) (n : N) :
  ascending ns -> Forall (fun m => (m < n)%N) ns -> ascending (ns ++ [n]).
Proof.
  induction ns as [|a ns IH]; cbn [ascending app]; intros Ha Hn.
  - split; [constructor | exact I].
  - destruct Ha as [Ha1 Ha2]. inversion Hn as [|? ? Han Hn']; subst.
    split; [|auto].
    apply Forall_app. split; [exact Ha1|]. constructor; [exact Han|constructor].
Qed.

Lemma ascending_NoDup (ns : list N) : ascending ns -> NoDup ns.
Proof.
  induction ns as [|a ns IH]; cbn [ascending]; intros H; constructor.
  - destruct H as [H _]. intros Hin.
    rewrite Forall_forall in H. specialize (H a Hin). lia.
  - apply IH, H.
Qed.

Lemma toString_NoDup (ns : list N) : NoDup ns -> NoDup (map toString ns).
Proof.
  induction 1 as [|a ns Hin Hnd IH]; cbn [map]; constructor; [|exact IH].
  intros H. apply in_map_iff in H as [b [Hb Hin']].
  apply toString_inj in Hb. now subst.
Qed.

Lemma ids_kept (w w' : Browser) :
  messages w' = messages w ->
  clock w' = clock w ->
  reads w <= reads w' ->
  ids_in_order w -> ids_in_order w'.
Proof.
  intros Hm Hc Hr [ns [Hids [Hasc Hb]]]. exists ns.
  rewrite Hm, Hc. split; [exact Hids|]. split; [exact Hasc|].
  eapply Forall_impl; [|exact Hb]. cbv beta.
  intros n [k [Hk Hn]]. exists k. split; [lia | exact Hn].
Qed.

Lemma ids_snoc (w w' : Browser) (m : Message) (k : nat) :
  spaced (clock w) ->
  ids_in_order w ->
  messages w' = messages w ++ [m] ->
  clock w' = clock w ->
  reads w <= k ->
  k + 2 <= reads w' ->
  id m = toString (clock w k) \/ id m = toString (clock w k + 1) ->
  ids_in_order w'.
Proof.
  intros Hsp [ns [Hids [Hasc Hb]]] Hm Hc Hk Hk' Hid.
  assert (Hn : exists n, id m = toString n /\
                         (clock w k <= n <= clock w k + 1)%N).
  { destruct Hid as [-> | ->]; eexists; (split; [reflexivity | lia]). }
  destruct Hn as [n [Hidn Hn]].
  exists (ns ++ [n]). rewrite Hm, Hc, !map_app, Hids. cbn [map].
  rewrite Hidn. split; [reflexivity|]. split.
  - apply ascending_snoc; [exact Hasc|].
    eapply Forall_impl; [|exact Hb]. cbv beta.
    intros n0 [k0 [Hk0 Hn0]].
    assert (H2 : (clock w k0 + 2 <= clock w k)%N) by (apply Hsp; lia).
    lia.
  - apply Forall_app. split.
    + eapply Forall_impl; [|exact Hb]. cbv beta.
      intros n0 [k0 [Hk0 Hn0]]. exists k0. split; [lia | exact Hn0].
    + constructor; [|constructor]. exists k. split; [exact Hk' | lia].
Qed.

Lemma step_ids_in_order (s : Session) (a : Action) :
  spaced (clock (ui s)) ->
  ids_in_order (ui s) ->
  ids_in_order (ui (step s a)) /\ clock (ui (step s a)) = clock (ui s).
Proof.
  destruct s as [w fl]. cbn [ui]. intros Hsp Hi.
  destruct a as [t | | o]; cbn [step ui in_flight].
  - split; [|reflexivity].
    apply (ids_kept w); [reflexivity | reflexivity | apply le_n | exact Hi].
  - destruct (handleSend_cases w) as [-> | [Hb Hl]]; [now split|].
    rewrite (handleSend_accepts w Hb Hl). cbn [ui]. split; [|reflexivity].
    eapply (ids_snoc w _ _ (reads w) Hsp Hi);
      [reflexivity | reflexivity | apply le_n | cbn [reads]; lia |].
    left. reflexivity.
  - destruct fl as [|request rest]; [now split|]. cbn [ui].
    destruct o as [res_data | e].
    + destruct (nullish res_data) eqn:Hn.
      * destruct (resume_unreadable res_data w Hn) as [e ->].
        cbn [snd]. split; [|reflexivity].
        eapply (ids_snoc w _ _ (S (reads w)) Hsp Hi);
          [reflexivity | reflexivity | lia | cbn [reads]; lia |].
        right. reflexivity.
      * rewrite (resume_fulfilled res_data w Hn).
        cbn [snd]. split; [|reflexivity].
        eapply (ids_snoc w _ _ (reads w) Hsp Hi);
          [reflexivity | reflexivity | apply le_n | cbn [reads]; lia |].
        right. reflexivity.
    + rewrite resume_rejected. cbn [snd]. split; [|reflexivity].
      eapply (ids_snoc w _ _ (reads w) Hsp Hi);
        [reflexivity | reflexivity | apply le_n | cbn [reads]; lia |].
      right. reflexivity.
Qed.

(** When the messages are created at least two milliseconds from one
    another (readings of the clock two or more apart differ by two or
    more), the ids of every reachable log are the decimal forms of
    strictly ascending numbers, in the order of creation, and no two
    messages share an id. *)
Theorem ids_ascend_under_spaced_clock (page_clock : nat -> N)
    (acts : list Action) :
  spaced page_clock ->
  let log := messages (ui (run acts (mount page_clock))) in
  (exists ns, map id log = map toString ns /\ ascending ns) /\
  NoDup (map id log).
Proof.
  intros Hsp. cbv zeta.
  assert (H : ids_in_order (ui (run acts (mount page_clock)))).
  { assert (H0 : ids_in_order (ui (mount page_clock)))
      by (exists []; repeat split; constructor).
    assert (Hc : spaced (clock (ui (mount page_clock)))) by exact Hsp.
    revert H0 Hc. generalize (mount page_clock).
    induction acts as [|a acts IH]; intros s H0 Hc; [exact H0|].
    destruct (step_ids_in_order s a Hc H0) as [H1 Hc1].
    apply IH; [exact H1 | now rewrite Hc1]. }
  destruct H as [ns [Hids [Hasc _]]]. split.
  - now exists ns.
  - rewrite Hids. apply toString_NoDup, ascending_NoDup, Hasc.
Qed.

(** A clock that gains two milliseconds at each reading, and a turn. *)
Lemma ids_ascend_under_spaced_clock_witness :
  let page_clock := fun k => (1730000000000 + 2 * N.of_nat k)%N in
  let acts := play (lit "Hi", Rejected (Raised JNull)) in
  let log := messages (ui (run acts (mount page_clock))) in
  spaced page_clock /\
  (exists ns, map id log = map toString ns /\ ascending ns) /\
  NoDup (map id log).
Proof.
  intros page_clock acts log.
  assert (Hsp : spaced page_clock)
    by (intros i j Hij; unfold page_clock; lia).
  split; [exact Hsp|].
  apply (ids_ascend_under_spaced_clock page_clock acts Hsp).
Defined.

End SessionMore.

(** ** The client and the backend together *)

Module ExchangeMore.
Import Client ClientFacts SessionMore.

(** What [handleSend] did when it issued a request. *)
Lemma handleSend_posted (w w1 : Browser) (request : PostRequest) :
  handleSend w = (Normal (Some request), w1) ->
  blank (input w) = false /\
  loading w = false /\
  data request = JObject [(lit "message", JString (input w))] /\
  messages w1 =
    messages w ++
      [{| id := toString (clock w (reads w)); text := JString (input w);
          sender := user; timestamp := clock w (S (reads w)) |}] /\
  input w1 = [] /\
  loading w1 = true.
Proof.
  intros H. destruct (handleSend_cases w) as [Hg | [Hb Hl]].
  - rewrite Hg in H. discriminate H.
  - rewrite (handleSend_accepts w Hb Hl) in H.
    injection H as <- <-. repeat split; assumption.
Qed.

Lemma posted_message_valid (t : jsstring) :
  blank t = false ->
  Server.valid_message
    (Server.message_of (JObject [(lit "message", JString t)])) = true.
Proof. destruct t; [discriminate | reflexivity]. Qed.

(** The client never draws the validation error of the backend: the
    body of every request that [handleSend] issues passes the validation
    of the handler, which therefore answers it with a status other than
    400, whatever the key, the provider and the state of the process. *)
Theorem posted_request_passes_validation (w w1 : Browser)
    (request : PostRequest) (g : Server.Provider) (key : option jsstring)
    (p : Server.Process) :
  handleSend w = (Normal (Some request), w1) ->
  Server.valid_message (Server.message_of (data request)) = true /\
  exists r,
    Server.replied p (Server.after g key (data request) p) r /\
    Server.status r <> 400%N.
Proof.
  intros H. apply handleSend_posted in H as [Hb [_ [Hd _]]].
  assert (Hv := posted_message_valid (input w) Hb). rewrite <- Hd in Hv.
  split; [exact Hv|].
  destruct (ServerFacts.handleChat_total g key (data request) p)
    as [r [_ Hr]].
  exists r. split; [exact Hr|].
  exact (ServerFacts.handleChat_valid_status g key (data request) p r Hv Hr).
Qed.

(** ["  Hi "] sent from a fresh component to a backend that has no key. *)
Lemma posted_request_passes_validation_witness :
  let w := ui (step (mount (reading [] 1730000000000)) (Types (lit "  Hi "))) in
  let request :=
    {| url := lit "http://localhost:3001/api/chat";
       data := JObject [(lit "message", JString (lit "  Hi "))] |} in
  let w1 := snd (handleSend w) in
  handleSend w = (Normal (Some request), w1) /\
  Server.valid_message (Server.message_of (data request)) = true /\
  exists r,
    Server.replied Server.boot
      (Server.after (Server.answers (lit "Hello")) None (data request)
         Server.boot) r /\
    Server.status r <> 400%N.
Proof.
  intros w request w1. split; [reflexivity|].
  apply (posted_request_passes_validation w w1 request
           (Server.answers (lit "Hello")) None Server.boot).
  reflexivity.
Defined.

(** What a request issued by [handleSend] brings back from the
    backend. *)
Lemma round_trip_cases (g : Server.Provider) (key : option jsstring)
    (t : jsstring) :
  blank t = false ->
  let request :=
    {| url := lit "http://localhost:3001/api/chat";
       data := JObject [(lit "message", JString t)] |} in
  displayed (Exchange.round_trip g key request) =
    match key with
    | Some (c :: k) =>
        match g (Server.call_for (c :: k) (JString t)) with
        | Server.GeneratedText _ => JString no_response
        | _ => JString could_not_get_response
        end
    | _ => JString could_not_get_response
    end.
Proof.
  intros Hb request.
  assert (Hv := posted_message_valid t Hb).
  unfold Exchange.round_trip, Server.after.
  rewrite (ServerFacts.handleChat_valid g key (data request) Server.boot Hv).
  unfold Server.call_for.
  destruct key as [[|c k]|]; [reflexivity | | reflexivity].
  cbn. destruct (g _); reflexivity.
Qed.

(** The generated text never reaches the log. For a request that
    [handleSend] issued, served by the backend and brought back by axios,
    the continuation appends one bot message after the user's, and its
    text is the placeholder exactly when the backend had a key and the
    provider generated a text, and the fixed error string in every other
    case; the session is left not pending. *)
Theorem round_trip_shows_placeholder_or_error (w w1 : Browser)
    (request : PostRequest) (g : Server.Provider) (key : option jsstring) :
  handleSend w = (Normal (Some request), w1) ->
  exists u b w2,
    handleSend_resume (Exchange.round_trip g key request) w1
      = (Normal tt, w2) /\
    messages w2 = messages w ++ [u; b] /\
    view u = (user, JString (input w)) /\
    sender b = bot /\
    text b =
      match key with
      | Some (c :: k) =>
          match g (Server.call_for (c :: k) (JString (input w))) with
          | Server.GeneratedText _ => JString no_response
          | _ => JString could_not_get_response
          end
      | _ => JString could_not_get_response
      end /\
    loading w2 = false.
Proof.
  intros H. pose proof (handleSend_posted w w1 request H)
    as [Hb [_ [Hd [Hm _]]]].
  destruct request as [u0 d0]. cbn [data] in Hd. subst d0.
  assert (Hu : u0 = lit "http://localhost:3001/api/chat").
  { destruct (handleSend_cases w) as [Hg | [_ Hl]].
    - rewrite Hg in H. discriminate H.
    - rewrite (handleSend_accepts w Hb Hl) in H. now injection H. }
  subst u0.
  destruct (resume_spec (Exchange.round_trip g key
              {| url := lit "http://localhost:3001/api/chat";
                 data := JObject [(lit "message", JString (input w))] |}) w1)
    as [b [w2 [Hr [Hm2 [Hv [Hl2 _]]]]]].
  eexists _, b, w2. split; [exact Hr|].
  rewrite Hm2, Hm, <- app_assoc. split; [reflexivity|].
  split; [reflexivity|].
  unfold view in Hv. injection Hv as Hs Ht.
  split; [exact Hs|]. split; [|exact Hl2].
  rewrite Ht. apply (round_trip_cases g key (input w) Hb).
Qed.

(** ["Hi"] sent to a backend that has a key and a provider that answers
    ["Hello"]: the log shows the placeholder. *)
Lemma round_trip_shows_placeholder_or_error_witness :
  let w := ui (step (mount (reading [] 1730000000000)) (Types (lit "Hi"))) in
  let request :=
    {| url := lit "http://localhost:3001/api/chat";
       data := JObject [(lit "message", JString (lit "Hi"))] |} in
  let w1 := snd (handleSend w) in
  let g := Server.answers (lit "Hello") in
  handleSend w = (Normal (Some request), w1) /\
  exists u b w2,
    handleSend_resume (Exchange.round_trip g (Some (lit "secret")) request) w1
      = (Normal tt, w2) /\
    messages w2 = messages w ++ [u; b] /\
    view u = (user, JString (input w)) /\
    sender b = bot /\
    text b = JString no_response /\
    loading w2 = false.
Proof.
  intros w request w1 g. split; [reflexivity|].
  apply (round_trip_shows_placeholder_or_error w w1 request g
           (Some (lit "secret"))).
  reflexivity.
Defined.

End ExchangeMore.

(** ** The page *)

Module PageMore.
Import Client ClientFacts SessionMore Page.

Lemma button_disabled_guard (w : Browser) :
  button_disabled (render w) = loading w || blank (input w).
Proof.
  cbn [render button_disabled]. now rewrite truthy_trim, negb_involutive.
Qed.

(** The Send button is enabled exactly when sending does something: it
    is disabled in the states in which [handleSend] returns at its guard,
    and in every other state [handleSend] issues a request. *)
Theorem button_enabled_iff_send_posts (w : Browser) :
  button_disabled (render w) = false <->
  exists request w1, handleSend w = (Normal (Some request), w1).
Proof.
  rewrite button_disabled_guard. split.
  - intros H. apply orb_false_iff in H as [Hl Hb].
    rewrite (handleSend_accepts w Hb Hl). do 2 eexists. reflexivity.
  - intros [request [w1 H]].
    destruct (handleSend_cases w) as [Hg | [Hb Hl]].
    + rewrite Hg in H. discriminate H.
    + now rewrite Hb, Hl.
Qed.

Lemma session_eta (s : Session) :
  {| ui := ui s; in_flight := in_flight s |} = s.
Proof. now destruct s. Qed.

Lemma keypress_enter (s : Session) (e : KeyboardEvent) :
  JsString.eqb (key e) (lit "Enter") && negb (shiftKey e) = true ->
  match handleKeyPress e (ui s) with
  | (Normal (_, Some request), w) =>
      {| ui := w; in_flight := in_flight s ++ [request] |}
  | (_, w) => {| ui := w; in_flight := in_flight s |}
  end = step s Sends.
Proof.
  intros He. unfold handleKeyPress. rewrite He. unfold bind, ret.
  cbn [step].
  destruct (handleSend (ui s)) as [[[request|]|e0] w]; reflexivity.
Qed.

Lemma keypress_other (s : Session) (e : KeyboardEvent) :
  JsString.eqb (key e) (lit "Enter") && negb (shiftKey e) = false ->
  handleKeyPress e (ui s) = (Normal (false, None), ui s).
Proof.
  intros He. unfold handleKeyPress. now rewrite He.
Qed.

(** In the text field, Enter without Shift does what a click on the Send
    button does, in every state of the session, the button's being
    disabled included; any other key, and Enter with Shift, leaves the
    session as it is and does not call [preventDefault]. *)
Theorem enter_is_a_click (s : Session) (e : KeyboardEvent) :
  if JsString.eqb (key e) (lit "Enter") && negb (shiftKey e)
  then dispatch s (KeyPress e) = dispatch s Click
  else dispatch s (KeyPress e) = s /\
       fst (handleKeyPress e (ui s)) = Normal (false, None).
Proof.
  destruct (JsString.eqb (key e) (lit "Enter") && negb (shiftKey e)) eqn:He.
  - cbn [dispatch]. rewrite (keypress_enter s e He), button_disabled_guard.
    cbn [render field_disabled].
    destruct (loading (ui s)) eqn:Hl; [reflexivity|]. cbn [orb].
    destruct (blank (input (ui s))) eqn:Hb; [|reflexivity].
    cbn [step]. rewrite (handleSend_guard (ui s) (or_introl Hb)).
    apply session_eta.
  - cbn [dispatch]. rewrite (keypress_other s e He). cbn [fst].
    split; [|reflexivity].
    destruct (field_disabled (render (ui s))); [reflexivity|].
    apply session_eta.
Qed.

(** Every event of the page is a step of the session, or nothing. *)
Lemma dispatch_is_step (s : Session) (ev : PageEvent) :
  dispatch s ev = s \/ exists a, dispatch s ev = step s a.
Proof.
  destruct ev as [value | e | | o]; cbn [dispatch].
  - destruct (field_disabled _); [now left | right; now eexists].
  - destruct (field_disabled _); [now left|].
    destruct (JsString.eqb (key e) (lit "Enter") && negb (shiftKey e)) eqn:He.
    + right. exists Sends. apply (keypress_enter s e He).
    + left. rewrite (keypress_other s e He). apply session_eta.
  - destruct (button_disabled _); [now left | right; now eexists].
  - right. now eexists.
Qed.

Lemma browse_is_run (evs : list PageEvent) (s : Session) :
  exists acts, browse evs s = run acts s.
Proof.
  revert s. induction evs as [|ev evs IH]; intros s.
  - now exists [].
  - cbn [browse fold_left]. fold (browse evs (dispatch s ev)).
    destruct (IH (dispatch s ev)) as [acts Hacts]. rewrite Hacts.
    destruct (dispatch_is_step s ev) as [-> | [a ->]].
    + now exists acts.
    + now exists (a :: acts).
Qed.

Lemma dispatch_keeps_field_empty (s : Session) (ev : PageEvent) :
  (loading (ui s) = true -> input (ui s) = []) ->
  loading (ui (dispatch s ev)) = true -> input (ui (dispatch s ev)) = [].
Proof.
  intros H.
  assert (Hsend : loading (ui (step s Sends)) = true ->
                  input (ui (step s Sends)) = []).
  { cbn [step]. destruct (handleSend_cases (ui s)) as [-> | [Hb Hl]].
    - exact H.
    - rewrite (handleSend_accepts (ui s) Hb Hl). reflexivity. }
  destruct ev as [value | e | | o]; cbn [dispatch].
  - cbn [render field_disabled].
    destruct (loading (ui s)) eqn:Hl; [intros _; now apply H|].
    cbn. intros Hl'. congruence.
  - destruct (field_disabled _); [exact H|].
    destruct (JsString.eqb (key e) (lit "Enter") && negb (shiftKey e)) eqn:He.
    + rewrite (keypress_enter s e He). exact Hsend.
    + rewrite (keypress_other s e He). exact H.
  - destruct (button_disabled _); [exact H | exact Hsend].
  - cbn [step]. destruct (in_flight s); [exact H|].
    destruct (resume_spec o (ui s)) as [m [w' [-> [_ [_ [Hl' _]]]]]].
    cbn [ui snd]. congruence.
Qed.

(** Each event finding the page re-rendered, nothing can be typed
    ahead: the text field is empty as long as the session is pending. *)
Lemma field_is_empty_while_pending (page_clock : nat -> N)
    (evs : list PageEvent) :
  let s := browse evs (mount page_clock) in
  loading (ui s) = true -> input (ui s) = [].
Proof.
  cbv zeta.
  assert (H0 : loading (ui (mount page_clock)) = true ->
               input (ui (mount page_clock)) = []) by discriminate.
  revert H0. generalize (mount page_clock).
  induction evs as [|ev evs IH]; intros s H0; [exact H0|].
  apply IH, dispatch_keeps_field_empty, H0.
Qed.

(** The loading indicator is on the page exactly while the session is
    pending, although it is rendered inside the message list only: a
    pending session has at least the user's message in its log. This
    holds however typing, sending and settling are interleaved. *)
Theorem progress_shown_iff_pending (page_clock : nat -> N)
    (acts : list Action) :
  let w := ui (run acts (mount page_clock)) in
  progress_shown (render w) = loading w /\
  (window (render w) = StartAConversation <-> messages w = []).
Proof.
  cbv zeta. destruct (run_reachable page_clock acts) as [_ H].
  unfold progress_shown. cbn [render window].
  destruct (messages (ui (run acts (mount page_clock)))) as [|m l] eqn:Hm.
  - cbn [List.length]. split; [|tauto].
    destruct (loading _); [|reflexivity].
    destruct H as [before [m [Hb _]]].
    destruct before; discriminate Hb.
  - cbn [List.length]. split; [reflexivity|]. split; discriminate.
Qed.

End PageMore.

(** ** Renders and commits *)

Module RenderMore.
Import Client ClientFacts SessionMore Page PageMore Render.

(** The handlers of the render of the state as it stands are the
    handlers of the session. *)
Lemma handleSend_of_current (w : Browser) : handleSend_of w w = handleSend w.
Proof. reflexivity. Qed.

Lemma handleKeyPress_of_current (w : Browser) (e : KeyboardEvent) :
  handleKeyPress_of w e w = handleKeyPress e w.
Proof.
  unfold handleKeyPress_of, handleKeyPress.
  destruct (_ && _); [|reflexivity].
  unfold bind. now rewrite handleSend_of_current.
Qed.

Lemma handleSend_of_accepts (r w : Browser) :
  blank (input r) = false ->
  loading r = false ->
  handleSend_of r w =
    (Normal (Some {| url := lit "http://localhost:3001/api/chat";
                     data := JObject [(lit "message", JString (input r))] |}),
     {| messages := messages w ++
          [{| id := toString (clock w (reads w));
              text := JString (input r);
              sender := user;
              timestamp := clock w (S (reads w)) |}];
        input := [];
        loading := true;
        clock := clock w;
        reads := S (S (reads w));
        console := console w |}).
Proof.
  intros Hb Hl. unfold handleSend_of.
  rewrite truthy_trim, negb_involutive, Hb, Hl. reflexivity.
Qed.

(** An event followed by a commit, on a page that showed the current
    state, is a dispatch of the session. *)
Lemma occur_then_commit (s : Session) (ev : PageEvent) :
  occur (occur {| current := s; rendered := ui s |} (Fires ev)) Commits =
    {| current := dispatch s ev; rendered := ui (dispatch s ev) |}.
Proof.
  destruct ev as [value | e | | o]; cbn [occur dispatch current rendered].
  - destruct (field_disabled _); reflexivity.
  - destruct (field_disabled _); [reflexivity|].
    rewrite handleKeyPress_of_current. unfold issue.
    destruct (handleKeyPress e (ui s)) as [[[p [request|]]|e0] w];
      reflexivity.
  - destruct (button_disabled _); [reflexivity|].
    unfold bind. rewrite handleSend_of_current. cbn [step]. unfold issue.
    destruct (handleSend (ui s)) as [[[request|]|e0] w]; reflexivity.
  - reflexivity.
Qed.

Lemma live_each_committed (evs : list PageEvent) (s : Session) :
  live (each_committed evs) {| current := s; rendered := ui s |} =
    {| current := browse evs s; rendered := ui (browse evs s) |}.
Proof.
  revert s. induction evs as [|ev evs IH]; intros s; [reflexivity|].
  unfold live, each_committed in *. cbn [flat_map app fold_left].
  rewrite (occur_then_commit s ev). apply IH.
Qed.

Lemma committed_is_run (page_clock : nat -> N) (evs : list PageEvent) :
  exists acts,
    current (live (each_committed evs) (mounted page_clock)) =
      run acts (mount page_clock).
Proof.
  unfold mounted. rewrite (live_each_committed evs (mount page_clock)).
  apply browse_is_run.
Qed.

(** When the component commits after each event, a request is in flight
    exactly while the session is pending, and never more than one,
    however changes, key presses, clicks and settlements follow one
    another. *)
Theorem one_request_when_each_event_commits (page_clock : nat -> N)
    (evs : list PageEvent) :
  let s := current (live (each_committed evs) (mounted page_clock)) in
  List.length (in_flight s) = if loading (ui s) then 1 else 0.
Proof.
  cbv zeta. destruct (committed_is_run page_clock evs) as [acts ->].
  apply (one_request_while_pending page_clock acts).
Qed.

(** When the component commits after each event: while the session is
    pending, the log ends with a message of the user, and the one request
    in flight posts the text of that message to the chat endpoint. *)
Theorem pending_request_when_each_event_commits (page_clock : nat -> N)
    (evs : list PageEvent) :
  let s := current (live (each_committed evs) (mounted page_clock)) in
  loading (ui s) = true ->
  exists before m,
    messages (ui s) = before ++ [m] /\
    sender m = user /\
    in_flight s =
      [{| url := lit "http://localhost:3001/api/chat";
          data := JObject [(lit "message", text m)] |}].
Proof.
  cbv zeta. destruct (committed_is_run page_clock evs) as [acts ->].
  apply (pending_request_is_for_last_message page_clock acts).
Qed.

(** ["Hi"] typed and sent with the Enter key. *)
Lemma pending_request_when_each_event_commits_witness :
  let evs := [Change (lit "Hi"); KeyPress plain_enter] in
  let s := current (live (each_committed evs)
                      (mounted (reading [] 1730000000000))) in
  loading (ui s) = true /\
  exists before m,
    messages (ui s) = before ++ [m] /\
    sender m = user /\
    in_flight s =
      [{| url := lit "http://localhost:3001/api/chat";
          data := JObject [(lit "message", text m)] |}].
Proof.
  intros evs s. split; [reflexivity|].
  apply (pending_request_when_each_event_commits
           (reading [] 1730000000000) evs).
  reflexivity.
Defined.

(** When the component commits after each event, the session never
    stays pending past a settlement: once a request has settled, however
    it settled, the session is not pending and nothing is in flight. *)
Theorem settlement_ends_pending_when_each_event_commits
    (page_clock : nat -> N) (evs : list PageEvent) (o : AxiosOutcome) :
  let s := current (live (each_committed (evs ++ [Settled o]))
                      (mounted page_clock)) in
  loading (ui s) = false /\ in_flight s = [].
Proof.
  cbv zeta. unfold mounted.
  rewrite (live_each_committed (evs ++ [Settled o]) (mount page_clock)).
  cbn [current]. unfold browse. rewrite fold_left_app. cbn [fold_left].
  fold (browse evs (mount page_clock)).
  destruct (browse_is_run evs (mount page_clock)) as [acts ->].
  cbn [dispatch]. apply (settlement_ends_pending page_clock acts o).
Qed.

(** When the component commits after each event, nothing can be typed
    ahead: the text field is empty as long as the session is pending. *)
Theorem field_is_empty_when_each_event_commits (page_clock : nat -> N)
    (evs : list PageEvent) :
  let s := current (live (each_committed evs) (mounted page_clock)) in
  loading (ui s) = true -> input (ui s) = [].
Proof.
  cbv zeta. unfold mounted.
  rewrite (live_each_committed evs (mount page_clock)). cbn [current].
  apply (field_is_empty_while_pending page_clock evs).
Qed.

(** ["Hi"] typed and sent with the Enter key; ["more"] typed while the
    request is out is not taken. *)
Lemma field_is_empty_when_each_event_commits_witness :
  let evs := [Change (lit "Hi"); KeyPress plain_enter; Change (lit "more")] in
  let s := current (live (each_committed evs)
                      (mounted (reading [] 1730000000000))) in
  loading (ui s) = true /\ input (ui s) = [].
Proof.
  intros evs s. split; [reflexivity|].
  apply (field_is_empty_when_each_event_commits
           (reading [] 1730000000000) evs).
  reflexivity.
Defined.

(** A send that reaches a page showing a sendable state is taken,
    whatever the current state has become. *)
Lemma send_is_taken (c : Component) (ev : PageEvent) :
  ev = Click \/ ev = KeyPress plain_enter ->
  blank (input (rendered c)) = false ->
  loading (rendered c) = false ->
  occur c (Fires ev) =
    {| current :=
         {| ui :=
              {| messages := messages (ui (current c)) ++
                   [{| id := toString (clock (ui (current c))
                                         (reads (ui (current c))));
                       text := JString (input (rendered c));
                       sender := user;
                       timestamp := clock (ui (current c))
                                      (S (reads (ui (current c)))) |}];
                 input := [];
                 loading := true;
                 clock := clock (ui (current c));
                 reads := S (S (reads (ui (current c))));
                 console := console (ui (current c)) |};
            in_flight := in_flight (current c) ++
              [{| url := lit "http://localhost:3001/api/chat";
                  data := JObject [(lit "message",
                                    JString (input (rendered c)))] |}] |};
       rendered := rendered c |}.
Proof.
  intros [-> | ->] Hb Hl; cbn [occur].
  - rewrite button_disabled_guard, Hb, Hl. cbn [orb]. unfold bind.
    rewrite (handleSend_of_accepts _ _ Hb Hl). reflexivity.
  - cbn [render field_disabled]. rewrite Hl.
    unfold handleKeyPress_of.
    replace (JsString.eqb (key plain_enter) (lit "Enter")
             && negb (shiftKey plain_enter)) with true by reflexivity.
    unfold bind. rewrite (handleSend_of_accepts _ _ Hb Hl). reflexivity.
Qed.

(** The guard alone does not keep the requests apart. Two sends that
    reach the page before it re-renders, by the Enter key or by the
    button, are both handled by the same render, in which [loading] is
    still false: two user messages with the same text are logged and two
    requests are in flight. *)
Theorem two_sends_before_the_commit (page_clock : nat -> N) (t : jsstring)
    (first second : PageEvent) :
  blank t = false ->
  (first = Click \/ first = KeyPress plain_enter) ->
  (second = Click \/ second = KeyPress plain_enter) ->
  let s := current (live [Fires (Change t); Commits;
                          Fires first; Fires second]
                      (mounted page_clock)) in
  map view (messages (ui s)) = [(user, JString t); (user, JString t)] /\
  map data (in_flight s) =
    [JObject [(lit "message", JString t)];
     JObject [(lit "message", JString t)]] /\
  loading (ui s) = true.
Proof.
  intros Hb H1 H2. cbv zeta. unfold live. cbn [fold_left].
  set (w := {| messages := []; input := t; loading := false;
               clock := page_clock; reads := 0; console := [] |}).
  change (occur (occur (mounted page_clock) (Fires (Change t))) Commits)
    with {| current := {| ui := w; in_flight := [] |}; rendered := w |}.
  rewrite (send_is_taken _ first) by (exact H1 || exact Hb || reflexivity).
  cbn [current rendered ui in_flight].
  rewrite (send_is_taken _ second) by (exact H2 || exact Hb || reflexivity).
  cbn [current rendered ui in_flight messages loading input w app map view
       sender text data].
  repeat split.
Qed.

(** ["Hi"], then the Enter key twice before the page re-renders. *)
Lemma two_sends_before_the_commit_witness :
  let s := current (live [Fires (Change (lit "Hi")); Commits;
                          Fires (KeyPress plain_enter);
                          Fires (KeyPress plain_enter)]
                      (mounted (reading [] 1730000000000))) in
  blank (lit "Hi") = false /\
  map view (messages (ui s)) =
    [(user, JString (lit "Hi")); (user, JString (lit "Hi"))] /\
  map data (in_flight s) =
    [JObject [(lit "message", JString (lit "Hi"))];
     JObject [(lit "message", JString (lit "Hi"))]] /\
  loading (ui s) = true.
Proof.
  intros s. split; [reflexivity|].
  apply (two_sends_before_the_commit (reading [] 1730000000000) (lit "Hi")
           (KeyPress plain_enter) (KeyPress plain_enter));
    [reflexivity | right; reflexivity | right; reflexivity].
Defined.

End RenderMore.
